(** * jax_elo.general: a shallow embedding of the generalised Elo rating engine

    The embedded module is [src/jax_elo/general.py].  Arrays of floating-point
    numbers are idealised as lists of real numbers ([vector], [matrix]); the
    [jit] and [partial] decorators, which do not change the value a function
    returns, are left out, as is the progress bar [tqdm], which yields exactly
    the elements of the sequence it wraps.

    Array operations are modelled on arrays of the shapes the module works
    with: means of length [L], design vectors and concatenated means of
    length [2L], tables with one row of length [L] per competitor, and
    parallel match arrays of one common length.  Row indices are natural
    numbers. *)

From Stdlib Require Import Reals Lra Lia.
From stdpp Require Import gmap strings list fin_maps.

Abbreviation vector := (list R).
Abbreviation matrix := (list (list R)).

(** An array whose second dimension is known even when it has no rows, as
    [a_full] of shape [N, 2L]: [a_full.shape[1]] is read when [N = 0] too. *)
Record array2 := Array2 { shape1 : nat; rows : list vector }.

(** ** The [jax.numpy] operations the module calls *)

Module Jnp.
Local Open Scope R_scope.

(** [jnp.zeros(n)] and [jnp.zeros((n, m))]. *)
Definition zeros (n : nat) : vector := replicate n 0.
Definition zeros2 (n m : nat) : matrix := replicate n (zeros m).

(** [jnp.eye(n)]. *)
Definition eye (n : nat) : matrix :=
  (fun i => (fun j => if decide (i = j) then 1 else 0) <$> seq 0 n) <$> seq 0 n.

(** [jnp.concatenate([u, v])] on one-dimensional arrays. *)
Definition concatenate (u v : vector) : vector := u ++ v.

(** [jnp.kron(A, B)]: block [(i, k)] of the result is [A[i][k] * B]. *)
Definition kron (A B : matrix) : matrix :=
  A ≫= fun a : vector => (fun b : vector => a ≫= fun x : R => Rmult x <$> b) <$> B.

(** [jnp.split(v, 2)]: two halves; the source array has even length [2L]. *)
Definition split2 (v : vector) : vector * vector :=
  (take (length v / 2) v, drop (length v / 2) v).

(** [jnp.sum]. *)
Definition sum (v : vector) : R := foldr Rplus 0 v.

(** Unary minus and [+] on arrays of one shape. *)
Definition neg (v : vector) : vector := Ropp <$> v.
Definition add (u v : vector) : vector := zip_with Rplus u v.

(** [u @ v], [A @ x], [A.T] and [A @ B]. *)
Definition dot (u v : vector) : R := sum (zip_with Rmult u v).
Definition matvec (A : matrix) (x : vector) : vector := (fun r => dot r x) <$> A.
Definition ncols (A : matrix) : nat := from_option length 0%nat (head A).
Definition column (A : matrix) (j : nat) : vector := (fun r => default 0 (r !! j)) <$> A.
Definition transpose (A : matrix) : matrix := column A <$> seq 0 (ncols A).
Definition matmul (A B : matrix) : matrix :=
  (fun r => dot r <$> transpose B) <$> A.

(** [A[i, j]]. *)
Definition entry (A : matrix) (i j : nat) : R := default 0 (A !! i ≫= (.!! j)).

(** [carry[i]] for a non-negative index [i]: a read past the last row is
    clamped to the last row (jax gathers clamp out-of-bounds indices). *)
Definition getitem (carry : matrix) (i : nat) : vector :=
  default [] (carry !! (i `min` (length carry - 1))%nat).

(** [jax.ops.index_update(carry, i, v)]: the array with row [i] replaced;
    an update past the last row is dropped. *)
Definition index_update (carry : matrix) (i : nat) (v : vector) : matrix :=
  <[i := v]> carry.

(** [onp.tril_indices_from(L)] for [L] of shape [n, m]: the positions on
    and below the diagonal, row by row. *)
Definition tril_indices (n m : nat) : list (nat * nat) :=
  seq 0 n ≫= fun i : nat => pair i <$> seq 0 (S i `min` m).
Definition tril_indices_from (L : matrix) : list (nat * nat) :=
  tril_indices (length L) (ncols L).

(** [L[ix]] for a pair of index arrays, here a list of positions. *)
Definition getitem_indices (L : matrix) (ix : list (nat * nat)) : vector :=
  (fun ij => entry L ij.1 ij.2) <$> ix.
End Jnp.

(** ** The helpers imported from [ml_tools] *)

Module MlTools.
Local Open Scope R_scope.

(** Modelled from the spec: [ml_tools.lin_alg.num_triangular_elts] is not
    part of the sources; the number of lower-triangular entries of an
    [L] by [L] matrix is [L(L+1)/2]. *)
Definition num_triangular_elts (n : nat) : nat := (n * (n + 1) / 2)%nat.

(** Modelled from the spec: the triangular factor that
    [ml_tools.jax.pos_def_mat_from_tri_elts], which is not part of the
    sources, builds from the flat entries.  They are the lower-triangular
    entries of the Cholesky factor, in the row-by-row order in which
    [get_starting_elts] extracts them; entries above the diagonal are zero. *)
Definition lo_tri_from_elements (elts : vector) (n : nat) : matrix :=
  (fun i => (fun j => if decide (j ≤ i)%nat
                      then default 0 (elts !! (num_triangular_elts i + j)%nat)
                      else 0) <$> seq 0 n) <$> seq 0 n.

(** Modelled from the spec: [ml_tools.jax.pos_def_mat_from_tri_elts] is not
    part of the sources; the covariance is [L Lᵗ] for the lower-triangular
    [L] holding the flat entries. *)
Definition pos_def_mat_from_tri_elts (elts : vector) (n : nat) : matrix :=
  let L := lo_tri_from_elements elts n in
  Jnp.matmul L (Jnp.transpose L).

(** Modelled from the spec: [ml_tools.jax.weighted_sum] is not part of the
    sources; the linear transform of a Gaussian has mean [aᵗ μ] and variance
    [aᵗ Σ a]. *)
Definition weighted_sum (x : vector) (cov_mat : matrix) (a : vector) : R * R :=
  (Jnp.dot a x, Jnp.dot a (Jnp.matvec cov_mat a)).

Definition expit (z : R) : R := 1 / (1 + exp (- z)).

(** Modelled from the spec: [ml_tools.jax.logistic_normal_integral_approx]
    is not part of the sources; the closed-form moment-matching approximation
    of the integral of [logistic(z) N(z; mu, var)] is the logistic function
    at [mu / sqrt (1 + pi var / 8)].  The variance of a Gaussian is not
    negative, which a positive semi-definite covariance guarantees for the
    latent variance; the value at a negative radicand is not meant. *)
Definition logistic_normal_integral_approx (mu var : R) : R :=
  expit (mu / sqrt (1 + PI * var / 8)).
End MlTools.

(** ** Python results and exceptions *)

Inductive exception := NameError (name : string).

Inductive result (A : Type) :=
  | Returned (a : A)
  | Raised (e : exception).
Arguments Returned {A} a.
Arguments Raised {A} e.

(** [lax.scan(f, init, xs)]: the carry is threaded through the slices of
    [xs] from left to right and the per-slice outputs are stacked. *)
Fixpoint scan {C X Y : Type} (f : C → X → C * Y) (init : C) (xs : list X)
    : C * list Y :=
  match xs with
  | [] => (init, [])
  | x :: xs' =>
      let '(carry, y) := f init x in
      let '(final, ys) := scan f carry xs' in
      (final, y :: ys)
  end.

(** The slices along the leading axis of four parallel arrays, which is
    what both [lax.scan] over [[winners, losers, a_full, y_full]] and the
    builtin [zip] iterate over; [zip] stops at the shortest array, and
    [lax.scan] is given arrays of one length. *)
Definition zip4 {A B : Type} (winners losers : list A) (a_full y_full : list B)
    : list (A * A * B * B) :=
  zip (zip (zip winners losers) a_full) y_full.

(** [collections.defaultdict]: reading a missing key stores the default
    under that key and returns it. *)
Definition defaultdict_getitem (default_value : vector)
    (d : gmap string vector) (k : string) : vector * gmap string vector :=
  match d !! k with
  | Some v => (v, d)
  | None => (default_value, <[k := default_value]> d)
  end.

(** One entry of the history list, a dictionary with five fixed keys. *)
Record match_record := MatchRecord {
  winner : string;
  loser : string;
  prior_mu_winner : vector;
  prior_mu_loser : vector;
  prior_win_prob : R }.

(** ** The module *)

Section General.
(** [Theta] is the outcome model's parameter structure and [Summaries]
    the shape description that undoes its flattening. *)
Context {Theta Summaries : Type}.

Record EloFunctions := {
  log_post_jac_x : vector → vector → matrix → vector → Theta → vector → vector;
  log_post_hess_x : vector → vector → matrix → vector → Theta → vector → matrix;
  predictive_lik_fun : vector → vector → vector → matrix → Theta → vector → R;
  parse_theta_fun : vector → Summaries → Theta;
  win_prob_fun : vector → vector → vector → matrix → R }.

Record EloParams := { theta : Theta; cov_mat : matrix }.

(** [jnp.linalg.solve], [jnp.linalg.cholesky] and
    [ml_tools.flattening.flatten_and_summarise] are library routines outside
    the module. *)
Variable linalg_solve : matrix → vector → vector.
Variable linalg_cholesky : matrix → matrix.
Variable flatten_and_summarise : Theta → vector * Summaries.

Definition calculate_update (mu : vector) (cov_mat : matrix) (a y : vector)
    (elo_functions : EloFunctions) (elo_params : EloParams) : vector * R :=
  let lik := predictive_lik_fun elo_functions mu mu a cov_mat
               (theta elo_params) y in
  let mode_jac := log_post_jac_x elo_functions mu mu cov_mat a
                    (theta elo_params) y in
  let mode_hess := log_post_hess_x elo_functions mu mu cov_mat a
                     (theta elo_params) y in
  let new_x := Jnp.neg (linalg_solve mode_hess mode_jac) in
  (Jnp.add new_x mu, lik).

Definition calculate_win_prob (mu1 mu2 a : vector) (cov_mat : matrix)
    (pre_factor : R) : R :=
  let full_mu := Jnp.concatenate mu1 mu2 in
  let full_cov_mat := Jnp.kron (Jnp.eye 2) cov_mat in
  let '(latent_mean, latent_var) :=
    MlTools.weighted_sum full_mu full_cov_mat a in
  MlTools.logistic_normal_integral_approx
    (pre_factor * latent_mean) (pre_factor ^ 2 * latent_var).

(** The default of the keyword argument [pre_factor]. *)
Definition pre_factor_default : R := 1.

Definition concatenate_and_update (mu1 mu2 a y : vector)
    (elo_functions : EloFunctions) (elo_params : EloParams)
    : vector * vector * R :=
  let mu := Jnp.concatenate mu1 mu2 in
  let cov_full := Jnp.kron (Jnp.eye 2) (cov_mat elo_params) in
  let '(new_mu, lik) :=
    calculate_update mu cov_full a y elo_functions elo_params in
  let '(new_mu1, new_mu2) := Jnp.split2 new_mu in
  (new_mu1, new_mu2, lik).

Definition update_ratings (carry : matrix) (x : nat * nat * vector * vector)
    (elo_functions : EloFunctions) (elo_params : EloParams) : matrix * R :=
  let '(cur_winner, cur_loser, cur_a, cur_y) := x in
  let '(new_winner_mean, new_loser_mean, lik) :=
    concatenate_and_update (Jnp.getitem carry cur_winner)
      (Jnp.getitem carry cur_loser) cur_a cur_y elo_functions elo_params in
  let carry := Jnp.index_update carry cur_winner new_winner_mean in
  let carry := Jnp.index_update carry cur_loser new_loser_mean in
  (carry, lik).

Definition calculate_ratings_scan (winners_array losers_array : list nat)
    (a_full : array2) (y_full : list vector) (elo_functions : EloFunctions)
    (elo_params : EloParams) (init : matrix) : matrix * R :=
  let fun_to_scan := fun carry x =>
    update_ratings carry x elo_functions elo_params in
  let '(ratings, liks) :=
    scan fun_to_scan init
      (zip4 winners_array losers_array (rows a_full) y_full) in
  (ratings, Jnp.sum liks).

(** The type of [concatenate_and_update], the update routine of the module. *)
Definition update_function : Type :=
  vector → vector → vector → vector → EloFunctions → EloParams
  → vector * vector * R.

(** The loop of [calculate_ratings_history] over the slices that [zip]
    yields, threading the [ratings] dictionary and the [history] list.  The
    body calls the global name [compute_update]; [binding] is what the module
    namespace holds under that name, [None] when the name is unbound, in
    which case evaluating the call raises [NameError]. *)
Fixpoint history_loop (binding : option update_function)
    (default_value : vector) (elo_functions : EloFunctions)
    (elo_params : EloParams) (ratings : gmap string vector)
    (history : list match_record)
    (slices : list (string * string * vector * vector))
    : result (gmap string vector * list match_record) :=
  match slices with
  | [] => Returned (ratings, history)
  | (cur_winner, cur_loser, cur_a, cur_y) :: rest =>
      let '(mu1, ratings) :=
        defaultdict_getitem default_value ratings cur_winner in
      let '(mu2, ratings) :=
        defaultdict_getitem default_value ratings cur_loser in
      let prior_win_prob :=
        win_prob_fun elo_functions mu1 mu2 cur_a (cov_mat elo_params) in
      match binding with
      | None => Raised (NameError "compute_update")
      | Some compute_update =>
          let '(new_mu1, new_mu2, lik) :=
            compute_update mu1 mu2 cur_a cur_y elo_functions elo_params in
          let history :=
            history ++ [MatchRecord cur_winner cur_loser mu1 mu2
                          prior_win_prob] in
          let ratings := <[cur_winner := new_mu1]> ratings in
          let ratings := <[cur_loser := new_mu2]> ratings in
          history_loop binding default_value elo_functions elo_params
            ratings history rest
      end
  end.

(** The names the module binds are its imports and its definitions;
    [compute_update] is not among them. *)
Definition module_compute_update : option update_function := None.

Definition calculate_ratings_history (winners losers : list string)
    (a_full : array2) (y_full : list vector) (elo_functions : EloFunctions)
    (elo_params : EloParams) : result (list match_record) :=
  let ratings : gmap string vector := ∅ in
  let default_value := Jnp.zeros (shape1 a_full / 2) in
  let history := [] in
  match history_loop module_compute_update default_value elo_functions
          elo_params ratings history
          (zip4 winners losers (rows a_full) y_full) with
  | Returned (_, history) => Returned history
  | Raised e => Raised e
  end.

Definition get_starting_elts (cov_mat : matrix) : vector :=
  let L := linalg_cholesky cov_mat in
  let elts := Jnp.getitem_indices L (Jnp.tril_indices_from L) in
  elts.

(** What [print] writes: one line per call, here the printed value. *)
Inductive printed :=
  | PrintTheta (t : Theta)
  | PrintArray (m : matrix).

(** [update_params] returns the new parameters; the second component is
    what it prints on the way. *)
Definition update_params (x : vector) (params : EloParams)
    (functions : EloFunctions) (summaries : Summaries) (verbose : bool)
    : EloParams * list printed :=
  let n_latent := length (cov_mat params) in
  let cov_mat := MlTools.pos_def_mat_from_tri_elts
                   (take (MlTools.num_triangular_elts n_latent) x) n_latent in
  let theta := parse_theta_fun functions
                 (drop (MlTools.num_triangular_elts n_latent) x) summaries in
  let params := {| theta := theta; cov_mat := cov_mat |} in
  (params, if verbose then [PrintTheta theta; PrintArray cov_mat] else []).

Definition ratings_lik (winners_array losers_array : list nat)
    (a_full : array2) (y_full : list vector) (elo_functions : EloFunctions)
    (elo_params : EloParams) (init : matrix) : R :=
  (calculate_ratings_scan winners_array losers_array a_full y_full
     elo_functions elo_params init).2.

Definition to_optimise (x : vector) (start_params : EloParams)
    (functions : EloFunctions) (winners_array losers_array : list nat)
    (a_full : array2) (y_full : list vector) (summaries : Summaries)
    (n_players : nat) (verbose : bool) : R * list printed :=
  let '(params, out) :=
    update_params x start_params functions summaries verbose in
  let init := Jnp.zeros2 n_players (shape1 a_full / 2) in
  let cur_lik := ratings_lik winners_array losers_array a_full y_full
                   functions params init in
  ((- cur_lik)%R, out).

(** The first three statements of [optimise_elo]: the flat start vector
    handed to the minimiser and the summary of the shapes of [theta]. *)
Definition optimise_elo_start (start_params : EloParams)
    : vector * Summaries :=
  let '(theta_flat, theta_summary) :=
    flatten_and_summarise (theta start_params) in
  let start_cov_mat := get_starting_elts (cov_mat start_params) in
  let start_elts := Jnp.concatenate start_cov_mat theta_flat in
  (start_elts, theta_summary).
End General.

(** ** The optimiser *)

Section Optimiser.
Context {Theta Summaries OptimizeResult : Type}.
Variable linalg_solve : matrix → vector → vector.
Variable linalg_cholesky : matrix → matrix.
Variable flatten_and_summarise : Theta → vector * Summaries.

(** [scipy.optimize.minimize(fun, x0, jac=..., tol=...)], the solution
    vector [result.x] of what it returns, and [jax.grad] are library routines
    outside the module. *)
Variable minimize :
  (vector → R) → vector → (vector → vector) → R → OptimizeResult.
Variable result_x : OptimizeResult → vector.
Variable grad : (vector → R) → vector → vector.

(** [optimise_elo] returns the final parameters and the minimiser's result.
    The objective handed to the minimiser is [to_optimise] with its default
    [verbose=True], whatever [verbose] the caller passes; what it prints at
    each evaluation is not part of the returned value and is left out.  The
    final [update_params] is called with [verbose=False] and prints
    nothing. *)
Definition optimise_elo (start_params : EloParams)
    (functions : EloFunctions) (winners_array losers_array : list nat)
    (a_full : array2) (y_full : list vector) (n_players : nat) (tol : R)
    (verbose : bool) : EloParams * OptimizeResult :=
  let '(theta_flat, theta_summary) :=
    flatten_and_summarise (theta start_params) in
  let start_cov_mat := get_starting_elts linalg_cholesky (cov_mat start_params) in
  let start_elts := Jnp.concatenate start_cov_mat theta_flat in
  let minimize_fun := fun x =>
    (to_optimise linalg_solve x start_params functions winners_array
       losers_array a_full y_full theta_summary n_players true).1 in
  let minimize_grad := grad minimize_fun in
  let result := minimize minimize_fun start_elts minimize_grad tol in
  let final_params :=
    (update_params (result_x result) start_params functions theta_summary
       false).1 in
  (final_params, result).
End Optimiser.

Arguments EloFunctions : clear implicits.
Arguments EloParams : clear implicits.
Arguments update_function : clear implicits.
Arguments printed : clear implicits.

(** ** Vocabulary of the specification *)

(** Exchanging the entries at positions [i] and [i + 1] of a sequence. *)
Definition swap_adjacent {A : Type} (i : nat) (l : list A) : list A :=
  match l !! i, l !! S i with
  | Some x, Some y => <[S i := x]> (<[i := y]> l)
  | _, _ => l
  end.

(** [d] solves the linear system [H d = b]. *)
Definition solves (H : matrix) (b d : vector) : Prop := Jnp.matvec H d = b.

(** Shapes, symmetry and definiteness of a real matrix. *)
Definition has_shape (n m : nat) (C : matrix) : Prop :=
  length C = n ∧ Forall (fun r => length r = m) C.

Definition symmetric (C : matrix) : Prop :=
  ∀ i j : nat, Jnp.entry C i j = Jnp.entry C j i.

Definition quad_form (C : matrix) (v : vector) : R :=
  Jnp.dot v (Jnp.matvec C v).

Definition positive_semidefinite (n : nat) (C : matrix) : Prop :=
  ∀ v : vector, length v = n → (0 <= quad_form C v)%R.

Definition positive_definite (n : nat) (C : matrix) : Prop :=
  ∀ v : vector, length v = n → v ≠ Jnp.zeros n → (0 < quad_form C v)%R.

(** [L] is an [n] by [n] matrix that vanishes above the diagonal. *)
Definition lower_triangular (n : nat) (L : matrix) : Prop :=
  has_shape n n L ∧ ∀ i j : nat, (i < j)%nat → Jnp.entry L i j = 0%R.

(** The linear combination [v[0] * rows[0] + v[1] * rows[1] + ...] of rows of
    length [m], which is the product [Lᵗ v] when [rows] are the rows of [L]. *)
Definition scale (c : R) (r : vector) : vector := Rmult c <$> r.

Definition lincomb (m : nat) (v : vector) (rows : matrix) : vector :=
  foldr (fun cr acc => Jnp.add (scale cr.1 cr.2) acc) (Jnp.zeros m) (zip v rows).

(** The diagonal entry of row [i] among the flat triangular entries. *)
Definition diagonal_elt (x : vector) (i : nat) : R :=
  default 0%R (x !! (MlTools.num_triangular_elts i + i)%nat).

(** ** A one-skill outcome model and a three-match history, for evaluation *)

Module Example.
Local Open Scope R_scope.

(** A quadratic log-posterior with gradient [a] and Hessian [-I] at the
    prior mean; [theta] is kept as the flat vector it is parsed from. *)
Definition functions : EloFunctions vector unit := {|
  log_post_jac_x := fun _ _ _ a _ _ => a;
  log_post_hess_x := fun _ _ _ _ _ _ => [[-1; 0]; [0; -1]];
  predictive_lik_fun := fun _ mu a _ _ _ => Jnp.dot a mu;
  parse_theta_fun := fun flat _ => flat;
  win_prob_fun := fun mu1 mu2 a cov_mat =>
    calculate_win_prob mu1 mu2 a cov_mat pre_factor_default |}.

Definition flatten_and_summarise (theta : vector) : vector * unit :=
  (theta, tt).

(** A solver for diagonal systems: [b[i] / H[i, i]]. *)
Definition diagonal_solve (H : matrix) (b : vector) : vector :=
  imap (fun i bi => bi / Jnp.entry H i i) b.

(** The Cholesky factor of a two by two matrix. *)
Definition cholesky2 (C : matrix) : matrix :=
  let l00 := sqrt (Jnp.entry C 0 0) in
  let l10 := Jnp.entry C 1 0 / l00 in
  [[l00; 0]; [l10; sqrt (Jnp.entry C 1 1 - l10 * l10)]].

Definition params : EloParams vector :=
  {| theta := [3]; cov_mat := [[4; 2]; [2; 2]] |}.

Definition params1 : EloParams vector :=
  {| theta := []; cov_mat := [[1]] |}.

(** Parameters of the dimension of [params] with another covariance and
    another [theta]. *)
Definition params_other : EloParams vector :=
  {| theta := [9; 9]; cov_mat := [[1; 0]; [0; 1]] |}.

(** A beats B, B beats C, A beats C. *)
Definition winners : list string := ["A"; "B"; "A"]%string.
Definition losers : list string := ["B"; "C"; "C"]%string.
Definition winners_array : list nat := [0; 1; 0]%nat.
Definition losers_array : list nat := [1; 2; 2]%nat.
Definition a_full : array2 := Array2 2 [[1; -1]; [1; -1]; [1; -1]].
Definition y_full : list vector := [[]; []; []].

(** Start parameters of the same dimension as [params1]. *)
Definition params1' : EloParams vector :=
  {| theta := [5]; cov_mat := [[7]] |}.

(** Two matches between four different competitors. *)
Definition winners_array4 : list nat := [0; 2]%nat.
Definition losers_array4 : list nat := [1; 3]%nat.
Definition a_full4 : array2 := Array2 2 [[1; -1]; [1; -1]].
Definition y_full4 : list vector := [[]; []].

(** A minimiser that stops at once, at the vector it is started from, and
    a gradient routine; the minimiser's result is its solution vector. *)
Definition minimize_start (f : vector → R) (x0 : vector)
    (jac : vector → vector) (tol : R) : vector := x0.
Definition grad_zero (f : vector → R) (x : vector) : vector :=
  Jnp.zeros (length x).

(** The index assignment A→0, B→1, C→2. *)
Definition index_of (name : string) : nat :=
  if decide (name = "A"%string) then 0
  else if decide (name = "B"%string) then 1
  else if decide (name = "C"%string) then 2
  else 3.
End Example.

(** Evaluation of a closed array expression, leaving real arithmetic to
    [lra]. *)
Ltac eval_arrays :=
  cbv -[Rplus Rmult Ropp Rdiv Rinv Rminus IZR]; repeat f_equal; lra.

(** * Properties *)

(** ** Arithmetic of arrays *)

Section Arrays.
Local Open Scope R_scope.

Lemma add_comm (u v : vector) : Jnp.add u v = Jnp.add v u.
Proof.
  revert v. induction u as [|x u IH]; intros [|y v]; simpl; try done.
  unfold Jnp.add in *. simpl. f_equal; [lra | apply IH].
Qed.

Lemma dot_nil_r (u : vector) : Jnp.dot u [] = 0.
Proof. by destruct u. Qed.

Lemma dot_cons (x y : R) (u v : vector) :
  Jnp.dot (x :: u) (y :: v) = x * y + Jnp.dot u v.
Proof. done. Qed.

Lemma dot_neg_r (u v : vector) : Jnp.dot u (Jnp.neg v) = - Jnp.dot u v.
Proof.
  revert v. induction u as [|x u IH]; intros [|y v]; simpl;
    rewrite ?dot_nil_r; try (unfold Jnp.dot; simpl; lra).
  rewrite !dot_cons, IH. lra.
Qed.

Lemma matvec_neg (H : matrix) (d : vector) :
  Jnp.matvec H (Jnp.neg d) = Jnp.neg (Jnp.matvec H d).
Proof.
  unfold Jnp.matvec, Jnp.neg. rewrite <- list_fmap_compose.
  apply list_fmap_ext. intros _ r _. simpl. apply dot_neg_r.
Qed.
End Arrays.

(** ** The single-match update *)

Section Update.
Context {Theta Summaries : Type}.
Variable linalg_solve : matrix → vector → vector.
Implicit Types (elo_functions : EloFunctions Theta Summaries).
Implicit Types (elo_params : EloParams Theta).

(** C4.  Whenever the solver returns a solution of [Hessian s = Jacobian],
    both taken at the single point [mu], [calculate_update] returns
    [(mu + delta, lik)] where [delta] solves [Hessian delta = - Jacobian] and
    [lik] is the predictive likelihood at the prior mean [mu]. *)
Theorem calculate_update_newton_step (mu : vector) (cov_mat : matrix)
    (a y : vector) elo_functions elo_params :
  let jac := log_post_jac_x elo_functions mu mu cov_mat a (theta elo_params) y in
  let hess := log_post_hess_x elo_functions mu mu cov_mat a (theta elo_params) y in
  solves hess jac (linalg_solve hess jac) →
  ∃ delta : vector,
    solves hess (Jnp.neg jac) delta ∧
    calculate_update linalg_solve mu cov_mat a y elo_functions elo_params
    = (Jnp.add mu delta,
       predictive_lik_fun elo_functions mu mu a cov_mat (theta elo_params) y).
Proof.
  intros jac hess Hsol.
  exists (Jnp.neg (linalg_solve hess jac)). split.
  - unfold solves in *. by rewrite matvec_neg, Hsol.
  - unfold calculate_update. fold jac hess. by rewrite add_comm.
Qed.

(** The rows that one step of the fold writes, and the likelihood it
    returns, in terms of [concatenate_and_update]. *)
Lemma update_ratings_unfold (carry : matrix) (w l : nat) (a y : vector)
    elo_functions elo_params :
  update_ratings linalg_solve carry (w, l, a, y) elo_functions elo_params
  = let r := concatenate_and_update linalg_solve (Jnp.getitem carry w)
               (Jnp.getitem carry l) a y elo_functions elo_params in
    (<[l := r.1.2]> (<[w := r.1.1]> carry), r.2).
Proof.
  unfold update_ratings.
  by destruct (concatenate_and_update _ _ _ _ _ _ _) as [[n1 n2] lik].
Qed.

(** C5.  One step of the fold writes the new winner mean into the
    winner's row and then the new loser mean into the loser's row, and that
    is all it writes: every row [j] other than these two is as it was. *)
Theorem update_ratings_frame (carry : matrix) (w l : nat) (a y : vector)
    elo_functions elo_params (j : nat) :
  j ≠ w → j ≠ l →
  let r := concatenate_and_update linalg_solve (Jnp.getitem carry w)
             (Jnp.getitem carry l) a y elo_functions elo_params in
  let carry' :=
    (update_ratings linalg_solve carry (w, l, a, y) elo_functions elo_params).1 in
  carry' = Jnp.index_update (Jnp.index_update carry w r.1.1) l r.1.2
  ∧ carry' !! j = carry !! j.
Proof.
  intros Hw Hl r carry'. subst carry'. rewrite update_ratings_unfold. fold r.
  split; [done|]. simpl. by rewrite !list_lookup_insert_ne.
Qed.

(** The two rows that the step does write hold the new means, the loser's
    write coming last. *)
Lemma update_ratings_written (carry : matrix) (w l : nat) (a y : vector)
    elo_functions elo_params :
  let r := concatenate_and_update linalg_solve (Jnp.getitem carry w)
             (Jnp.getitem carry l) a y elo_functions elo_params in
  let carry' :=
    (update_ratings linalg_solve carry (w, l, a, y) elo_functions elo_params).1 in
  length carry' = length carry ∧
  ((l < length carry)%nat → carry' !! l = Some r.1.2) ∧
  ((w < length carry)%nat → w ≠ l → carry' !! w = Some r.1.1).
Proof.
  intros r carry'. subst carry'. rewrite update_ratings_unfold. fold r. simpl.
  rewrite !length_insert. split_and!; [done | |].
  - intros Hl. apply list_lookup_insert_eq. by rewrite length_insert.
  - intros Hw Hne. rewrite list_lookup_insert_ne by done.
    by apply list_lookup_insert_eq.
Qed.
End Update.

(** ** The fold over a match history *)

Section Scan.
Context {C X Y : Type}.
Variable f : C → X → C * Y.

Lemma scan_app (init : C) (xs ys : list X) :
  scan f init (xs ++ ys)
  = let r := scan f init xs in
    let r' := scan f r.1 ys in
    (r'.1, r.2 ++ r'.2).
Proof.
  revert init. induction xs as [|x xs IH]; intros init; simpl.
  - by destruct (scan f init ys).
  - destruct (f init x) as [carry y]. rewrite IH. simpl.
    destruct (scan f carry xs) as [c1 o1]. simpl.
    by destruct (scan f c1 ys).
Qed.

(** The carry after a scan is the left fold of the step function. *)
Lemma scan_carry (init : C) (xs : list X) :
  (scan f init xs).1 = foldl (fun c x => (f c x).1) init xs.
Proof.
  revert init. induction xs as [|x xs IH]; intros init; simpl; [done|].
  destruct (f init x) as [carry y] eqn:E. rewrite <- IH. simpl.
  by destruct (scan f carry xs).
Qed.

(** The outputs of a scan: one per slice, each computed from the carry
    that the slices before it have produced. *)
Lemma scan_outputs (init : C) (xs : list X) :
  (scan f init xs).2
  = imap (fun i x => (f (foldl (fun c x => (f c x).1) init (take i xs)) x).2) xs.
Proof.
  revert init. induction xs as [|x xs IH]; intros init; simpl; [done|].
  destruct (f init x) as [carry y] eqn:E.
  specialize (IH carry). destruct (scan f carry xs) as [c1 o1]. simpl in *.
  f_equal. rewrite IH. apply imap_ext. intros i z _. simpl.
  by rewrite E.
Qed.
End Scan.

Section Swap.
Context {A : Type}.
Implicit Types (l : list A).

Lemma swap_adjacent_split (i : nat) l (x y : A) :
  l !! i = Some x → l !! S i = Some y →
  l = take i l ++ x :: y :: drop (S (S i)) l
  ∧ swap_adjacent i l = take i l ++ y :: x :: drop (S (S i)) l.
Proof.
  intros Hx Hy. unfold swap_adjacent. rewrite Hx, Hy.
  assert (Hl : l = take i l ++ x :: y :: drop (S (S i)) l).
  { rewrite <- (take_drop i l) at 1. f_equal.
    rewrite (drop_S _ _ _ Hx). f_equal. by rewrite (drop_S _ _ _ Hy). }
  split; [done|].
  assert (Hlen : length (take i l) = i).
  { apply length_take_le. apply lookup_lt_Some in Hx. lia. }
  rewrite Hl at 1.
  rewrite insert_app_r_alt by lia. rewrite Hlen, Nat.sub_diag. simpl.
  rewrite insert_app_r_alt by lia. rewrite Hlen.
  replace (S i - i)%nat with 1%nat by lia. done.
Qed.

Lemma swap_adjacent_length (i : nat) l :
  length (swap_adjacent i l) = length l.
Proof.
  unfold swap_adjacent. destruct (l !! i), (l !! S i); try done.
  by rewrite !length_insert.
Qed.
End Swap.

Lemma swap_adjacent_lookup {A : Type} (i j : nat) (l : list A) :
  (S i < length l)%nat →
  swap_adjacent i l !! j
  = l !! (if decide (j = i) then S i else if decide (j = S i) then i else j).
Proof.
  intros Hlen. unfold swap_adjacent.
  destruct (lookup_lt_is_Some_2 l i) as [x Hx]; [lia|].
  destruct (lookup_lt_is_Some_2 l (S i)) as [y Hy]; [lia|].
  rewrite Hx, Hy. repeat case_decide; subst.
  - rewrite list_lookup_insert_ne by lia.
    rewrite list_lookup_insert_eq by lia. done.
  - rewrite list_lookup_insert_eq by (rewrite length_insert; lia). done.
  - by rewrite !list_lookup_insert_ne by lia.
Qed.

Lemma zip_swap_adjacent {A B : Type} (i : nat) (l : list A) (k : list B) :
  (S i < length l)%nat → (S i < length k)%nat →
  zip (swap_adjacent i l) (swap_adjacent i k) = swap_adjacent i (zip l k).
Proof.
  intros Hl Hk. apply list_eq. intros j.
  rewrite swap_adjacent_lookup by (rewrite length_zip_with; lia).
  rewrite !lookup_zip_with, !swap_adjacent_lookup by done. done.
Qed.

Lemma zip4_swap_adjacent {A B : Type} (i : nat) (winners losers : list A)
    (a_full y_full : list B) :
  (S i < length winners)%nat → (S i < length losers)%nat →
  (S i < length a_full)%nat → (S i < length y_full)%nat →
  zip4 (swap_adjacent i winners) (swap_adjacent i losers)
    (swap_adjacent i a_full) (swap_adjacent i y_full)
  = swap_adjacent i (zip4 winners losers a_full y_full).
Proof.
  intros Hw Hl Ha Hy. unfold zip4.
  rewrite !zip_swap_adjacent; rewrite ?length_zip_with; try lia. done.
Qed.

Lemma zip4_lookup {A B : Type} (i : nat) (winners losers : list A)
    (a_full y_full : list B) (w l : A) (a y : B) :
  winners !! i = Some w → losers !! i = Some l →
  a_full !! i = Some a → y_full !! i = Some y →
  zip4 winners losers a_full y_full !! i = Some (w, l, a, y).
Proof.
  intros Hw Hl Ha Hy. unfold zip4.
  rewrite !lookup_zip_with, Hw, Hl, Ha, Hy. done.
Qed.

Section ScanSwap.
Context {C X Y : Type}.
Variable f : C → X → C * Y.

(** Two adjacent slices whose steps commute on the carry they meet may be
    exchanged without changing the final carry. *)
Lemma scan_swap_carry (init : C) (pre post : list X) (m1 m2 : X) :
  (f (f (scan f init pre).1 m1).1 m2).1 = (f (f (scan f init pre).1 m2).1 m1).1 →
  (scan f init (pre ++ m2 :: m1 :: post)).1
  = (scan f init (pre ++ m1 :: m2 :: post)).1.
Proof.
  rewrite !scan_carry, !foldl_app. simpl. by intros ->.
Qed.
End ScanSwap.

Section Ratings.
Context {Theta Summaries : Type}.
Variable linalg_solve : matrix → vector → vector.
Implicit Types (elo_functions : EloFunctions Theta Summaries).
Implicit Types (elo_params : EloParams Theta).

Lemma getitem_in_range (carry : matrix) (i : nat) :
  (i < length carry)%nat → Jnp.getitem carry i = default [] (carry !! i).
Proof. intros Hi. unfold Jnp.getitem. by rewrite Nat.min_l by lia. Qed.

Lemma getitem_insert_ne (carry : matrix) (i k : nat) (v : vector) :
  (i < length carry)%nat → i ≠ k →
  Jnp.getitem (<[k := v]> carry) i = Jnp.getitem carry i.
Proof.
  intros Hi Hne.
  rewrite !getitem_in_range by (rewrite ?length_insert; lia).
  by rewrite list_lookup_insert_ne.
Qed.

Lemma update_ratings_length (carry : matrix) (x : nat * nat * vector * vector)
    elo_functions elo_params :
  length (update_ratings linalg_solve carry x elo_functions elo_params).1
  = length carry.
Proof.
  destruct x as [[[w l] a] y]. rewrite update_ratings_unfold. simpl.
  by rewrite !length_insert.
Qed.

Lemma scan_update_ratings_length elo_functions elo_params (init : matrix)
    (xs : list (nat * nat * vector * vector)) :
  length (scan (fun carry x =>
                  update_ratings linalg_solve carry x elo_functions elo_params)
            init xs).1 = length init.
Proof.
  rewrite scan_carry. revert init.
  induction xs as [|x xs IH]; intros init; simpl; [done|].
  by rewrite IH, update_ratings_length.
Qed.

(** Two matches between four distinct competitors, all of them rows of the
    table, update it to the same table in either order. *)
Lemma update_ratings_commute (carry : matrix) (w1 l1 w2 l2 : nat)
    (a1 y1 a2 y2 : vector) elo_functions elo_params :
  w1 ≠ w2 → w1 ≠ l2 → l1 ≠ w2 → l1 ≠ l2 →
  (w1 < length carry)%nat → (l1 < length carry)%nat →
  (w2 < length carry)%nat → (l2 < length carry)%nat →
  let step := fun c x =>
    (update_ratings linalg_solve c x elo_functions elo_params).1 in
  step (step carry (w1, l1, a1, y1)) (w2, l2, a2, y2)
  = step (step carry (w2, l2, a2, y2)) (w1, l1, a1, y1).
Proof.
  intros H1 H2 H3 H4 Hw1 Hl1 Hw2 Hl2 step. subst step. cbv beta.
  rewrite !update_ratings_unfold. cbv zeta. cbn [fst snd].
  rewrite !getitem_insert_ne by (rewrite ?length_insert; lia || done).
  set (r1 := concatenate_and_update _ (Jnp.getitem carry w1) _ _ _ _ _).
  set (r2 := concatenate_and_update _ (Jnp.getitem carry w2) _ _ _ _ _).
  rewrite (list_insert_insert_ne _ w2 l1) by done.
  rewrite (list_insert_insert_ne _ w2 w1) by done.
  rewrite (list_insert_insert_ne _ l2 l1) by done.
  rewrite (list_insert_insert_ne _ l2 w1) by done.
  done.
Qed.

(** C6.  Exchanging two adjacent matches of a history whose competitors are
    four distinct rows of the ratings table leaves the final table returned
    by [calculate_ratings_scan] unchanged. *)
Theorem calculate_ratings_scan_swap_disjoint (winners_array losers_array : list nat)
    (a_full : array2) (y_full : list vector) elo_functions elo_params
    (init : matrix) (i wi li wj lj : nat) :
  winners_array !! i = Some wi → losers_array !! i = Some li →
  winners_array !! S i = Some wj → losers_array !! S i = Some lj →
  (S i < length (rows a_full))%nat → (S i < length y_full)%nat →
  wi ≠ wj → wi ≠ lj → li ≠ wj → li ≠ lj →
  (wi < length init)%nat → (li < length init)%nat →
  (wj < length init)%nat → (lj < length init)%nat →
  (calculate_ratings_scan linalg_solve (swap_adjacent i winners_array)
     (swap_adjacent i losers_array)
     (Array2 (shape1 a_full) (swap_adjacent i (rows a_full)))
     (swap_adjacent i y_full) elo_functions elo_params init).1
  = (calculate_ratings_scan linalg_solve winners_array losers_array a_full
       y_full elo_functions elo_params init).1.
Proof.
  intros Hwi Hli Hwj Hlj Ha Hy H1 H2 H3 H4 R1 R2 R3 R4.
  destruct (lookup_lt_is_Some_2 (rows a_full) i) as [ai Hai]; [lia|].
  destruct (lookup_lt_is_Some_2 (rows a_full) (S i)) as [aj Haj]; [lia|].
  destruct (lookup_lt_is_Some_2 y_full i) as [yi Hyi]; [lia|].
  destruct (lookup_lt_is_Some_2 y_full (S i)) as [yj Hyj]; [lia|].
  pose proof (zip4_lookup _ _ _ _ _ _ _ _ _ Hwi Hli Hai Hyi) as Zi.
  pose proof (zip4_lookup _ _ _ _ _ _ _ _ _ Hwj Hlj Haj Hyj) as Zj.
  destruct (swap_adjacent_split _ _ _ _ Zi Zj) as [Hsplit Hswap].
  unfold calculate_ratings_scan. simpl rows.
  rewrite zip4_swap_adjacent
    by (done || by eapply lookup_lt_Some).
  set (f := fun carry x => update_ratings linalg_solve carry x _ _).
  transitivity (scan f init (swap_adjacent i
                  (zip4 winners_array losers_array (rows a_full) y_full))).1;
    [by destruct (scan f init (swap_adjacent _ _))|].
  transitivity (scan f init (zip4 winners_array losers_array (rows a_full) y_full)).1;
    [|by destruct (scan f init (zip4 _ _ _ _))].
  rewrite Hswap. rewrite Hsplit at 3.
  apply scan_swap_carry.
  pose proof (scan_update_ratings_length elo_functions elo_params init
    (take i (zip4 winners_array losers_array (rows a_full) y_full))) as Hlen.
  fold f in Hlen.
  apply (update_ratings_commute _ wi li wj lj); by rewrite ?Hlen.
Qed.
End Ratings.

(** ** The optimiser's objective *)

Section Objective.
Context {Theta Summaries : Type}.
Variable linalg_solve : matrix → vector → vector.
Implicit Types (functions : EloFunctions Theta Summaries).
Implicit Types (start_params : EloParams Theta).

(** The table [jnp.zeros((n, m))] has [n] rows, each of them [m] zeros. *)
Lemma zeros2_lookup (n m i : nat) :
  Jnp.zeros2 n m !! i = if decide (i < n)%nat then Some (Jnp.zeros m) else None.
Proof.
  unfold Jnp.zeros2. case_decide.
  - by apply lookup_replicate_2.
  - apply lookup_ge_None. rewrite length_replicate. lia.
Qed.

Lemma zeros2_length (n m : nat) : length (Jnp.zeros2 n m) = n.
Proof. apply length_replicate. Qed.

(** C9.  The objective at [x] is minus the total log-likelihood that
    [calculate_ratings_scan] returns over the whole history, started from
    the all-zero table with [n_players] rows, under the parameters that
    [update_params] rebuilds from [x]. *)
Theorem to_optimise_minus_scan_lik (x : vector) start_params functions
    (winners_array losers_array : list nat) (a_full : array2)
    (y_full : list vector) (summaries : Summaries) (n_players : nat)
    (verbose : bool) :
  (to_optimise linalg_solve x start_params functions winners_array
     losers_array a_full y_full summaries n_players verbose).1
  = (- (calculate_ratings_scan linalg_solve winners_array losers_array a_full
          y_full functions
          (update_params x start_params functions summaries verbose).1
          (Jnp.zeros2 n_players (shape1 a_full / 2))).2)%R.
Proof.
  unfold to_optimise, ratings_lik.
  by destruct (update_params x start_params functions summaries verbose).
Qed.

(** C10.  Two start parameters whose covariance matrices have the same
    number of rows give the same rebuilt parameters, the same printed lines
    and the same objective value at every [x]. *)
Theorem start_params_only_dimension (x : vector) (p p' : EloParams Theta)
    functions (winners_array losers_array : list nat) (a_full : array2)
    (y_full : list vector) (summaries : Summaries) (n_players : nat)
    (verbose : bool) :
  length (cov_mat p) = length (cov_mat p') →
  update_params x p functions summaries verbose
  = update_params x p' functions summaries verbose
  ∧ to_optimise linalg_solve x p functions winners_array losers_array a_full
      y_full summaries n_players verbose
    = to_optimise linalg_solve x p' functions winners_array losers_array
        a_full y_full summaries n_players verbose.
Proof.
  intros Hdim.
  assert (Hup : update_params x p functions summaries verbose
                = update_params x p' functions summaries verbose).
  { unfold update_params. by rewrite Hdim. }
  split; [done|]. unfold to_optimise. by rewrite Hup.
Qed.
End Objective.

(** ** The win probability *)

Section WinProbability.
Local Open Scope R_scope.

Lemma dot_app (u1 u2 v1 v2 : vector) :
  length u1 = length v1 →
  Jnp.dot (u1 ++ u2) (v1 ++ v2) = Jnp.dot u1 v1 + Jnp.dot u2 v2.
Proof.
  revert v1. induction u1 as [|x u1 IH]; intros [|y v1] Hlen; try done.
  - simpl. unfold Jnp.dot at 2. simpl. lra.
  - simpl. rewrite !dot_cons, IH by (simpl in Hlen; lia). lra.
Qed.

Lemma dot_neg_l (u v : vector) : Jnp.dot (Jnp.neg u) v = - Jnp.dot u v.
Proof.
  revert v. induction u as [|x u IH]; intros [|y v]; simpl;
    try (unfold Jnp.dot; simpl; lra).
  rewrite !dot_cons, IH. lra.
Qed.

(** A design vector of the form [[b, -b]] maps two equal means to the
    latent difference zero. *)
Lemma antisymmetric_design_vector (b mean : vector) :
  length b = length mean →
  Jnp.dot (b ++ Jnp.neg b) (Jnp.concatenate mean mean) = 0.
Proof.
  intros Hlen. unfold Jnp.concatenate.
  rewrite dot_app, dot_neg_l by done. lra.
Qed.

Lemma expit_0 : MlTools.expit 0 = 1 / 2.
Proof. unfold MlTools.expit. rewrite Ropp_0, exp_0. lra. Qed.

Lemma expit_pos (z : R) : 0 < z → 1 / 2 < MlTools.expit z.
Proof.
  intros Hz. unfold MlTools.expit.
  assert (He : exp (- z) < 1) by (rewrite <- exp_0; apply exp_increasing; lra).
  pose proof (exp_pos (- z)) as Hp.
  apply Rmult_lt_reg_r with (r := 2 * (1 + exp (- z))); [lra|].
  field_simplify; lra.
Qed.

(** C2 fails as stated: with the design vector [[1, 0]], which weighs only
    the first competitor, mean [[1]] and unit covariance the latent mean is
    [1], and the win probability exceeds one half. *)
Lemma calculate_win_prob_equal_means_counterexample :
  calculate_win_prob [1] [1] [1; 0] [[1]] pre_factor_default ≠ 1 / 2.
Proof.
  unfold calculate_win_prob, MlTools.weighted_sum, pre_factor_default.
  cbn -[Rmult Rplus pow PI sqrt Rdiv].
  unfold MlTools.logistic_normal_integral_approx.
  match goal with |- MlTools.expit (?m / sqrt ?s) ≠ _ =>
    assert (Hm : m = 1) by (simpl; lra);
    assert (Hs : 0 < s) by (pose proof PI_RGT_0; simpl; nra)
  end.
  rewrite Hm.
  match goal with |- MlTools.expit ?z ≠ _ =>
    assert (Hz : 0 < z)
  end.
  { apply Rdiv_lt_0_compat; [lra|]. by apply sqrt_lt_R0. }
  pose proof (expit_pos _ Hz). lra.
Qed.
End WinProbability.

(** ** Products of a matrix with its transpose *)

Section Gram.
Local Open Scope R_scope.

Lemma dot_comm (u v : vector) : Jnp.dot u v = Jnp.dot v u.
Proof.
  revert v. induction u as [|x u IH]; intros [|y v]; try done.
  rewrite !dot_cons, IH. lra.
Qed.

Lemma dot_zeros_r (u : vector) (m : nat) : Jnp.dot u (Jnp.zeros m) = 0.
Proof.
  revert m. induction u as [|x u IH]; intros [|m]; try done.
  unfold Jnp.zeros in *. simpl. rewrite dot_cons, IH. lra.
Qed.

Lemma dot_add_r (u x y : vector) :
  length x = length y →
  Jnp.dot u (Jnp.add x y) = Jnp.dot u x + Jnp.dot u y.
Proof.
  revert x y. induction u as [|c u IH]; intros [|a x] [|b y] Hlen;
    try done; unfold Jnp.add in *; simpl.
  - unfold Jnp.dot. simpl. lra.
  - unfold Jnp.dot. simpl. lra.
  - rewrite dot_nil_r. lra.
  - rewrite !dot_cons, IH by (simpl in Hlen; lia). lra.
Qed.

Lemma dot_scale_r (u r : vector) (c : R) :
  Jnp.dot u (scale c r) = c * Jnp.dot u r.
Proof.
  revert r. induction u as [|x u IH]; intros [|y r]; simpl;
    try (unfold Jnp.dot; simpl; lra).
  rewrite !dot_cons, IH. lra.
Qed.

Lemma length_scale (c : R) (r : vector) : length (scale c r) = length r.
Proof. apply length_fmap. Qed.

Lemma length_add (x y : vector) :
  length x = length y → length (Jnp.add x y) = length x.
Proof. intros H. unfold Jnp.add. rewrite length_zip_with. lia. Qed.

Lemma length_lincomb (m : nat) (v : vector) (rows : matrix) :
  Forall (fun r => length r = m) rows → length (lincomb m v rows) = m.
Proof.
  intros Hrows. revert v.
  induction Hrows as [|r rows Hr Hrows IH]; intros [|c v]; simpl;
    try apply length_replicate.
  unfold lincomb in *. simpl.
  rewrite length_add; rewrite length_scale; [done|by rewrite IH].
Qed.

(** [Σ_j (u · rows[j]) v[j] = u · (Σ_j v[j] rows[j])]. *)
Lemma dot_gram_row (m : nat) (u v : vector) (rows : matrix) :
  Forall (fun r => length r = m) rows →
  Jnp.dot (Jnp.dot u <$> rows) v = Jnp.dot u (lincomb m v rows).
Proof.
  intros Hrows. revert v.
  induction Hrows as [|r rows Hr Hrows IH]; intros [|c v]; simpl;
    rewrite ?dot_nil_r; unfold lincomb; simpl; rewrite ?dot_zeros_r; try done.
  fold (lincomb m v rows).
  rewrite dot_cons, dot_add_r, dot_scale_r, IH.
  - lra.
  - by rewrite length_scale, length_lincomb.
Qed.

Lemma dot_self_nonneg (w : vector) : 0 <= Jnp.dot w w.
Proof.
  induction w as [|x w IH]; [unfold Jnp.dot; simpl; lra|].
  rewrite dot_cons. nra.
Qed.

Lemma dot_self_zero (w : vector) :
  Jnp.dot w w = 0 → w = Jnp.zeros (length w).
Proof.
  induction w as [|x w IH]; [done|]. rewrite dot_cons. intros H.
  pose proof (dot_self_nonneg w). unfold Jnp.zeros in *. simpl.
  f_equal; [nra|]. apply IH. nra.
Qed.
End Gram.

Section Transpose.
Local Open Scope R_scope.

Lemma fmap_lookup_seq (r : vector) :
  (fun j => default 0 (r !! j)) <$> seq 0 (length r) = r.
Proof.
  apply list_eq. intros j. rewrite list_lookup_fmap.
  destruct (decide (j < length r)%nat) as [Hj|Hj].
  - rewrite lookup_seq_lt by done. simpl.
    destruct (lookup_lt_is_Some_2 r j Hj) as [x Hx]. by rewrite Hx.
  - rewrite lookup_seq_ge by lia. symmetry. apply lookup_ge_None. lia.
Qed.

Lemma ncols_square (n : nat) (L : matrix) : has_shape n n L → Jnp.ncols L = n.
Proof.
  intros [Hlen Hrows]. destruct L as [|r L]; [done|].
  unfold Jnp.ncols. simpl. by inversion Hrows.
Qed.

Lemma transpose_square (n : nat) (L : matrix) :
  has_shape n n L → has_shape n n (Jnp.transpose L).
Proof.
  intros HL. pose proof (ncols_square n L HL) as Hc. destruct HL as [Hlen Hrows].
  unfold Jnp.transpose. rewrite Hc. split.
  - by rewrite length_fmap, length_seq.
  - apply Forall_fmap, Forall_forall. intros j _. simpl.
    unfold Jnp.column. by rewrite length_fmap.
Qed.

Lemma transpose_involutive (n : nat) (L : matrix) :
  has_shape n n L → Jnp.transpose (Jnp.transpose L) = L.
Proof.
  intros HL. pose proof (transpose_square n L HL) as HT.
  pose proof (ncols_square n _ HT) as HcT.
  pose proof (ncols_square n _ HL) as Hc.
  destruct HL as [Hlen Hrows].
  unfold Jnp.transpose at 1. rewrite HcT.
  apply list_eq. intros i. rewrite list_lookup_fmap.
  destruct (decide (i < n)%nat) as [Hi|Hi].
  - rewrite lookup_seq_lt by done. simpl.
    destruct (lookup_lt_is_Some_2 L i) as [r Hr]; [lia|]. rewrite Hr. f_equal.
    assert (Hlr : length r = n).
    { eapply Forall_lookup_1 in Hrows; [|exact Hr]. done. }
    unfold Jnp.transpose, Jnp.column. rewrite Hc, <- list_fmap_compose.
    rewrite <- (fmap_lookup_seq r) at 1. rewrite Hlr.
    apply list_fmap_ext. intros _ j _. simpl.
    by rewrite list_lookup_fmap, Hr.
  - rewrite lookup_seq_ge by lia. symmetry. apply lookup_ge_None. lia.
Qed.

(** [L Lᵗ] is the matrix of the dot products of the rows of [L]. *)
Lemma matmul_transpose (n : nat) (L : matrix) :
  has_shape n n L →
  Jnp.matmul L (Jnp.transpose L) = (fun r => Jnp.dot r <$> L) <$> L.
Proof.
  intros HL. unfold Jnp.matmul. by rewrite (transpose_involutive n).
Qed.

Lemma gram_entry (L : matrix) (i j : nat) :
  Jnp.entry ((fun r => Jnp.dot r <$> L) <$> L) i j
  = match L !! i, L !! j with
    | Some ri, Some rj => Jnp.dot ri rj
    | _, _ => 0
    end.
Proof.
  unfold Jnp.entry. rewrite list_lookup_fmap.
  destruct (L !! i) as [ri|]; simpl; [|done].
  rewrite list_lookup_fmap. by destruct (L !! j).
Qed.

Lemma gram_shape (n : nat) (L : matrix) :
  length L = n → has_shape n n ((fun r => Jnp.dot r <$> L) <$> L).
Proof.
  intros Hlen. split; [by rewrite length_fmap|].
  apply Forall_fmap, Forall_forall. intros r _. simpl. by rewrite length_fmap.
Qed.

Lemma gram_symmetric (L : matrix) :
  symmetric ((fun r => Jnp.dot r <$> L) <$> L).
Proof.
  intros i j. rewrite !gram_entry.
  destruct (L !! i), (L !! j); try done. apply dot_comm.
Qed.

(** [vᵗ (L Lᵗ) v = |Lᵗ v|²]. *)
Lemma gram_quad_form (m : nat) (L : matrix) (v : vector) :
  Forall (fun r => length r = m) L →
  quad_form ((fun r => Jnp.dot r <$> L) <$> L) v
  = Jnp.dot (lincomb m v L) (lincomb m v L).
Proof.
  intros Hrows. unfold quad_form, Jnp.matvec.
  rewrite <- list_fmap_compose.
  rewrite (list_fmap_ext _ (Jnp.dot (lincomb m v L)) L).
  - by rewrite dot_comm, (dot_gram_row m).
  - intros _ r _. simpl. by rewrite (dot_gram_row m), dot_comm.
Qed.
End Transpose.

(** ** Triangular factors *)

Section Triangular.
Local Open Scope R_scope.

Lemma add_zeros_r (x : vector) : Jnp.add x (Jnp.zeros (length x)) = x.
Proof.
  induction x as [|a x IH]; [done|]. unfold Jnp.add, Jnp.zeros in *. simpl.
  f_equal; [lra | apply IH].
Qed.

Lemma add_assoc (x y z : vector) :
  Jnp.add x (Jnp.add y z) = Jnp.add (Jnp.add x y) z.
Proof.
  revert y z. induction x as [|a x IH]; intros [|b y] [|c z]; try done.
  unfold Jnp.add in *. simpl. f_equal; [lra | apply IH].
Qed.

Lemma lincomb_cons (m : nat) (c : R) (v r : vector) (rows : matrix) :
  lincomb m (c :: v) (r :: rows) = Jnp.add (scale c r) (lincomb m v rows).
Proof. done. Qed.

Lemma lincomb_snoc (m : nat) (v : vector) (rows : matrix) (c : R) (r : vector) :
  length v = length rows → Forall (fun r => length r = m) rows → length r = m →
  lincomb m (v ++ [c]) (rows ++ [r]) = Jnp.add (lincomb m v rows) (scale c r).
Proof.
  intros Hlen Hrows Hr. revert v Hlen.
  induction Hrows as [|r' rows Hr' Hrows IH]; intros [|c' v] Hlen; try done.
  - simpl. rewrite lincomb_cons. unfold lincomb. simpl.
    rewrite <- (length_scale c r) in Hr. rewrite <- Hr.
    by rewrite add_zeros_r, add_comm, add_zeros_r.
  - simpl. rewrite !lincomb_cons, IH by (simpl in Hlen; lia).
    apply add_assoc.
Qed.

Lemma lincomb_lookup_zero (m k : nat) (v : vector) (rows : matrix) :
  Forall (fun r => length r = m) rows → (k < m)%nat →
  Forall (fun r => r !! k = Some 0) rows →
  lincomb m v rows !! k = Some 0.
Proof.
  intros Hrows Hk Hzero. revert v.
  induction Hrows as [|r rows Hr Hrows IH]; intros [|c v];
    try (by apply lookup_replicate_2).
  rewrite lincomb_cons. inversion Hzero as [|? ? Hr0 Hz]; subst.
  unfold Jnp.add. rewrite lookup_zip_with, IH by done.
  unfold scale. rewrite list_lookup_fmap, Hr0. simpl. f_equal. lra.
Qed.

(** Back-substitution: rows that vanish to the right of a non-zero
    diagonal are linearly independent. *)
Lemma triangular_lincomb_zero (m : nat) (rows : matrix) (v : vector) :
  length v = length rows → Forall (fun r => length r = m) rows →
  (∀ (i : nat) (r : vector), rows !! i = Some r →
     (∃ d, r !! i = Some d ∧ d ≠ 0)
     ∧ ∀ j : nat, (i < j)%nat → (j < m)%nat → r !! j = Some 0) →
  lincomb m v rows = Jnp.zeros m → v = Jnp.zeros (length rows).
Proof.
  revert v. induction rows as [|r rows IH] using rev_ind;
    intros v Hlen Hrows Htri Hzero.
  - by destruct v.
  - destruct (decide (v = [])) as [->|Hv];
      [rewrite length_app in Hlen; simpl in Hlen; lia|].
    destruct (exists_last Hv) as (v' & c & ->).
    rewrite !length_app in Hlen. simpl in Hlen.
    apply Forall_app in Hrows as [Hrows Hr].
    apply Forall_inv in Hr. simpl in Hr.
    assert (Hlen' : length v' = length rows) by lia.
    rewrite lincomb_snoc in Hzero by done.
    destruct (Htri (length rows) r) as [(d & Hd & Hd0) _].
    { by rewrite lookup_app_r, Nat.sub_diag by lia. }
    assert (Hk : (length rows < m)%nat).
    { apply lookup_lt_Some in Hd. lia. }
    assert (Hcol : Forall (fun r' => r' !! length rows = Some 0) rows).
    { apply Forall_lookup_2. intros i r' Hr'.
      destruct (Htri i r') as [_ Hz]; [by rewrite lookup_app_l by
        (by eapply lookup_lt_Some)|].
      apply Hz; [by eapply lookup_lt_Some | done]. }
    assert (Hc : c = 0).
    { pose proof (f_equal (fun w => w !! length rows) Hzero) as Hk0.
      simpl in Hk0. unfold Jnp.add, Jnp.zeros in Hk0.
      rewrite lookup_zip_with, (lincomb_lookup_zero m) in Hk0 by done.
      unfold scale in Hk0. rewrite list_lookup_fmap, Hd in Hk0. simpl in Hk0.
      rewrite lookup_replicate_2 in Hk0 by done.
      injection Hk0 as Hk0. nra. }
    subst c.
    assert (Hs : scale 0 r = Jnp.zeros (length (lincomb m v' rows))).
    { rewrite length_lincomb by done. unfold scale, Jnp.zeros.
      rewrite <- Hr. clear. induction r as [|a r IH]; [done|]. simpl.
      f_equal; [lra | apply IH]. }
    rewrite Hs, add_zeros_r in Hzero.
    rewrite (IH v' Hlen' Hrows); [| |done].
    + rewrite length_app. simpl. unfold Jnp.zeros.
      by rewrite replicate_add.
    + intros i r' Hr'. pose proof (lookup_lt_Some _ _ _ Hr') as Hi.
      apply Htri. by rewrite lookup_app_l.
Qed.
End Triangular.

(** ** Rebuilding the covariance from flat entries *)

Section Reconstruct.
Local Open Scope R_scope.

Lemma num_triangular_elts_S (n : nat) :
  MlTools.num_triangular_elts (S n) = (MlTools.num_triangular_elts n + S n)%nat.
Proof.
  unfold MlTools.num_triangular_elts.
  replace (S n * (S n + 1))%nat with (n * (n + 1) + S n * 2)%nat by lia.
  by rewrite Nat.div_add.
Qed.

Lemma num_triangular_elts_mono (i n : nat) :
  (i ≤ n)%nat → (MlTools.num_triangular_elts i ≤ MlTools.num_triangular_elts n)%nat.
Proof.
  induction 1 as [|n Hle IH]; [done|]. rewrite num_triangular_elts_S. lia.
Qed.

Lemma triangular_position_lt (i j n : nat) :
  (j ≤ i)%nat → (i < n)%nat →
  (MlTools.num_triangular_elts i + j < MlTools.num_triangular_elts n)%nat.
Proof.
  intros Hj Hi.
  pose proof (num_triangular_elts_mono (S i) n Hi) as Hm.
  rewrite num_triangular_elts_S in Hm. lia.
Qed.

Lemma lo_tri_lookup (elts : vector) (n i : nat) :
  (i < n)%nat →
  MlTools.lo_tri_from_elements elts n !! i
  = Some ((fun j => if decide (j ≤ i)%nat
                    then default 0 (elts !! (MlTools.num_triangular_elts i + j)%nat)
                    else 0) <$> seq 0 n).
Proof.
  intros Hi. unfold MlTools.lo_tri_from_elements.
  by rewrite list_lookup_fmap, lookup_seq_lt.
Qed.

Lemma lo_tri_shape (elts : vector) (n : nat) :
  has_shape n n (MlTools.lo_tri_from_elements elts n).
Proof.
  split; unfold MlTools.lo_tri_from_elements.
  - by rewrite length_fmap, length_seq.
  - apply Forall_fmap, Forall_forall. intros i _. simpl.
    by rewrite length_fmap, length_seq.
Qed.

Lemma lo_tri_entry (elts : vector) (n i j : nat) :
  (i < n)%nat → (j < n)%nat →
  Jnp.entry (MlTools.lo_tri_from_elements elts n) i j
  = if decide (j ≤ i)%nat
    then default 0 (elts !! (MlTools.num_triangular_elts i + j)%nat)
    else 0.
Proof.
  intros Hi Hj. unfold Jnp.entry. rewrite lo_tri_lookup by done. simpl.
  by rewrite list_lookup_fmap, lookup_seq_lt.
Qed.

Lemma pos_def_mat_from_tri_elts_gram (elts : vector) (n : nat) :
  MlTools.pos_def_mat_from_tri_elts elts n
  = (fun r => Jnp.dot r <$> MlTools.lo_tri_from_elements elts n)
    <$> MlTools.lo_tri_from_elements elts n.
Proof. apply (matmul_transpose n), lo_tri_shape. Qed.

(** The matrix [L Lᵗ] built from any flat entries is square, symmetric and
    positive semi-definite, and positive definite when the entries on the
    diagonal of [L] are not zero. *)
Lemma pos_def_mat_from_tri_elts_spec (elts : vector) (n : nat) :
  let C := MlTools.pos_def_mat_from_tri_elts elts n in
  has_shape n n C ∧ symmetric C ∧ positive_semidefinite n C
  ∧ ((∀ i : nat, (i < n)%nat →
        default 0 (elts !! (MlTools.num_triangular_elts i + i)%nat) ≠ 0) →
     positive_definite n C).
Proof.
  intros C. subst C. rewrite pos_def_mat_from_tri_elts_gram.
  set (L := MlTools.lo_tri_from_elements elts n).
  destruct (lo_tri_shape elts n) as [Hlen Hrows]. fold L in Hlen, Hrows.
  split_and!.
  - by apply gram_shape.
  - apply gram_symmetric.
  - intros v _. rewrite (gram_quad_form n) by done. apply dot_self_nonneg.
  - intros Hdiag v Hv Hne. rewrite (gram_quad_form n) by done.
    pose proof (dot_self_nonneg (lincomb n v L)) as Hge.
    destruct (Rle_lt_or_eq_dec _ _ Hge) as [Hlt|Heq]; [done|].
    exfalso. apply Hne. symmetry in Heq. apply dot_self_zero in Heq.
    rewrite length_lincomb in Heq by done. rewrite <- Hlen.
    apply (triangular_lincomb_zero n); [lia | done | | done].
    intros i r Hr. pose proof (lookup_lt_Some _ _ _ Hr) as Hi.
    rewrite Hlen in Hi. subst L. rewrite lo_tri_lookup in Hr by done.
    injection Hr as <-. split.
    + eexists. split.
      * rewrite list_lookup_fmap, lookup_seq_lt by done. simpl.
        by rewrite decide_True by lia.
      * by apply Hdiag.
    + intros j Hij Hj. rewrite list_lookup_fmap, lookup_seq_lt by done.
      simpl. by rewrite decide_False by lia.
Qed.
End Reconstruct.

Section Covariance.
Context {Theta Summaries : Type}.
Implicit Types (functions : EloFunctions Theta Summaries).
Implicit Types (params : EloParams Theta).
Local Open Scope R_scope.

Lemma update_params_cov_mat (x : vector) params functions
    (summaries : Summaries) (verbose : bool) :
  cov_mat (update_params x params functions summaries verbose).1
  = MlTools.pos_def_mat_from_tri_elts
      (take (MlTools.num_triangular_elts (length (cov_mat params))) x)
      (length (cov_mat params)).
Proof. done. Qed.

(** C8, as the code has it.  For every real flat vector the covariance
    that [update_params] rebuilds is square of the dimension of the start
    covariance, symmetric and positive semi-definite; it is positive definite
    whenever the flat entries that land on the diagonal of the triangular
    factor are all non-zero. *)
Theorem update_params_covariance (x : vector) params functions
    (summaries : Summaries) (verbose : bool) :
  let n := length (cov_mat params) in
  let C := cov_mat (update_params x params functions summaries verbose).1 in
  has_shape n n C ∧ symmetric C ∧ positive_semidefinite n C
  ∧ ((∀ i : nat, (i < n)%nat → diagonal_elt x i ≠ 0) → positive_definite n C).
Proof.
  intros n C. subst C. rewrite update_params_cov_mat. fold n.
  destruct (pos_def_mat_from_tri_elts_spec
              (take (MlTools.num_triangular_elts n) x) n)
    as (Hshape & Hsym & Hpsd & Hpd).
  split_and!; try done.
  intros Hdiag. apply Hpd. intros i Hi.
  rewrite lookup_take_lt by (by apply triangular_position_lt).
  by apply Hdiag.
Qed.
End Covariance.

(** C8 fails as stated: from the flat vector [[0]] and a one by one start
    covariance, [update_params] rebuilds the zero matrix, which is not
    positive definite. *)
Lemma update_params_covariance_counterexample :
  ¬ positive_definite 1
      (cov_mat (update_params [0%R] Example.params1 Example.functions tt true).1).
Proof.
  intros Hpd. specialize (Hpd [1%R] eq_refl).
  assert (Hne : [1%R] ≠ Jnp.zeros 1).
  { unfold Jnp.zeros. simpl. intros [= H]. lra. }
  specialize (Hpd Hne). revert Hpd.
  rewrite update_params_cov_mat, pos_def_mat_from_tri_elts_gram.
  unfold quad_form, Jnp.matvec, Jnp.dot, Jnp.sum. simpl. lra.
Qed.

(** ** Flattening and rebuilding the parameters *)

Section Flatten.
Local Open Scope R_scope.

Lemma tril_indices_S (k m : nat) :
  Jnp.tril_indices (S k) m
  = Jnp.tril_indices k m ++ (pair k <$> seq 0 (S k `min` m)).
Proof.
  unfold Jnp.tril_indices. rewrite seq_S, bind_app. simpl.
  by rewrite app_nil_r.
Qed.

Lemma tril_indices_length (k m : nat) :
  (k ≤ m)%nat → length (Jnp.tril_indices k m) = MlTools.num_triangular_elts k.
Proof.
  induction k as [|k IH]; intros Hk; [done|].
  rewrite tril_indices_S, length_app, length_fmap, length_seq, IH by lia.
  rewrite num_triangular_elts_S. lia.
Qed.

Lemma tril_indices_lookup (k m i j : nat) :
  (k ≤ m)%nat → (j ≤ i)%nat → (i < k)%nat →
  Jnp.tril_indices k m !! (MlTools.num_triangular_elts i + j)%nat = Some (i, j).
Proof.
  induction k as [|k IH]; intros Hk Hj Hi; [lia|].
  rewrite tril_indices_S.
  destruct (decide (i = k)) as [->|Hne].
  - rewrite lookup_app_r by (rewrite tril_indices_length by lia; lia).
    rewrite tril_indices_length by lia.
    replace (MlTools.num_triangular_elts k + j - MlTools.num_triangular_elts k)%nat
      with j by lia.
    rewrite list_lookup_fmap, lookup_seq_lt by lia. done.
  - rewrite lookup_app_l.
    + apply IH; lia.
    + rewrite tril_indices_length by lia. apply triangular_position_lt; lia.
Qed.

(** The flat entries read off a lower-triangular matrix rebuild it. *)
Lemma lo_tri_from_elements_tril (n : nat) (L : matrix) :
  lower_triangular n L →
  length (Jnp.getitem_indices L (Jnp.tril_indices_from L))
  = MlTools.num_triangular_elts n
  ∧ MlTools.lo_tri_from_elements
      (Jnp.getitem_indices L (Jnp.tril_indices_from L)) n = L.
Proof.
  intros [Hshape Hupper]. pose proof (ncols_square n L Hshape) as Hc.
  destruct Hshape as [Hlen Hrows].
  unfold Jnp.tril_indices_from, Jnp.getitem_indices. rewrite Hc, Hlen.
  split; [by rewrite length_fmap, tril_indices_length|].
  apply list_eq. intros i.
  destruct (decide (i < n)%nat) as [Hi|Hi].
  - rewrite lo_tri_lookup by done.
    destruct (lookup_lt_is_Some_2 L i) as [r Hr]; [lia|]. rewrite Hr. f_equal.
    assert (Hlr : length r = n).
    { eapply Forall_lookup_1 in Hrows; [|exact Hr]. done. }
    rewrite <- (fmap_lookup_seq r) at 1. rewrite Hlr.
    apply list_fmap_ext. intros k j Hjs.
    apply lookup_seq in Hjs as [Hjk Hj]. simpl in Hjk. subst k.
    assert (He : Jnp.entry L i j = default 0 (r !! j)).
    { unfold Jnp.entry. by rewrite Hr. }
    case_decide as Hji.
    + rewrite list_lookup_fmap, tril_indices_lookup by (done || lia).
      simpl. done.
    + rewrite <- He. symmetry. apply Hupper. lia.
  - rewrite !(proj2 (lookup_ge_None _ _)); [done|lia|].
    destruct (lo_tri_shape (Jnp.getitem_indices L (Jnp.tril_indices n n)) n)
      as [Hl _].
    unfold Jnp.getitem_indices in Hl. rewrite Hl. lia.
Qed.
End Flatten.

Section RoundTrip.
Context {Theta Summaries : Type}.
Variable linalg_cholesky : matrix → matrix.
Variable flatten_and_summarise : Theta → vector * Summaries.
Implicit Types (functions : EloFunctions Theta Summaries).

(** C7.  Let [p] be parameters on whose covariance [jnp.linalg.cholesky]
    returns a lower-triangular factor [L] with [L Lᵗ = p.cov_mat], and whose
    [theta] the parser of the outcome model recovers from its flattening.
    Then [update_params], applied to the flat start vector of [optimise_elo]
    (the triangular entries of [L] followed by the flattened [theta]) and the
    shape summary, returns [p], both the covariance and [theta], whatever old
    parameters [p'] of the same dimension it is handed: [p] is rebuilt from
    the flat vector. *)
Theorem update_params_roundtrip (p p' : EloParams Theta) functions
    (verbose : bool) :
  let L := linalg_cholesky (cov_mat p) in
  let flat := flatten_and_summarise (theta p) in
  let start := optimise_elo_start linalg_cholesky flatten_and_summarise p in
  length (cov_mat p') = length (cov_mat p) →
  lower_triangular (length (cov_mat p)) L →
  Jnp.matmul L (Jnp.transpose L) = cov_mat p →
  parse_theta_fun functions flat.1 flat.2 = theta p →
  (update_params start.1 p' functions start.2 verbose).1 = p.
Proof.
  intros L flat start Hdim HL Hchol Hparse. subst start.
  unfold optimise_elo_start, get_starting_elts. fold flat L.
  destruct flat as [theta_flat theta_summary] eqn:Hflat. simpl in *.
  destruct (lo_tri_from_elements_tril _ L HL) as [Hlen Hrebuild].
  unfold update_params, Jnp.concatenate. simpl.
  rewrite Hdim, <- Hlen, take_app_length, drop_app_length.
  unfold MlTools.pos_def_mat_from_tri_elts. rewrite Hrebuild, Hchol, Hparse.
  by destruct p.
Qed.
End RoundTrip.

(** ** The history builder *)

Section History.
Context {Theta Summaries : Type}.
Variable linalg_solve : matrix → vector → vector.
Implicit Types (elo_functions : EloFunctions Theta Summaries).
Implicit Types (elo_params : EloParams Theta).

Lemma zip4_nonempty {A B : Type} (winners losers : list A)
    (a_full y_full : list B) :
  winners ≠ [] → losers ≠ [] → a_full ≠ [] → y_full ≠ [] →
  ∃ x xs, zip4 winners losers a_full y_full = x :: xs.
Proof.
  destruct winners, losers, a_full, y_full; try done. intros _ _ _ _.
  unfold zip4. simpl. eauto.
Qed.

(** C1 does not hold of the code.  The loop body of
    [calculate_ratings_history] calls [compute_update], a name that the
    module binds nowhere: on every history with at least one match the call
    raises [NameError] in the first iteration, so no history and no final
    means are produced. *)
Theorem calculate_ratings_history_name_error (winners losers : list string)
    (a_full : array2) (y_full : list vector) elo_functions elo_params :
  winners ≠ [] → losers ≠ [] → rows a_full ≠ [] → y_full ≠ [] →
  calculate_ratings_history winners losers a_full y_full elo_functions
    elo_params
  = Raised (NameError "compute_update").
Proof.
  intros Hw Hl Ha Hy.
  destruct (zip4_nonempty _ _ _ _ Hw Hl Ha Hy) as ([[[w l] a] y] & xs & Hzip).
  unfold calculate_ratings_history. rewrite Hzip.
  unfold module_compute_update. simpl.
  destruct (defaultdict_getitem _ ∅ w) as [mu1 r1].
  by destruct (defaultdict_getitem _ r1 l) as [mu2 r2].
Qed.

(** With no match to process the loop body never runs and the empty history
    is returned. *)
Lemma calculate_ratings_history_empty (a_full : array2) elo_functions
    elo_params :
  calculate_ratings_history [] [] a_full [] elo_functions elo_params
  = Returned [].
Proof. done. Qed.
End History.

(** ** The history builder with [compute_update] bound *)

(** What the history builder would compute if the module bound
    [compute_update] to its update routine [concatenate_and_update]: the
    dictionary it ends with agrees, name by name, with the table that
    [calculate_ratings_scan] returns under an injective assignment of row
    indices to names. *)
Section Refinement.
Context {Theta Summaries : Type}.
Variable linalg_solve : matrix → vector → vector.
Variable index_of : string → nat.
Variable names : list string.
Variable n_players : nat.
Hypothesis index_of_inj :
  ∀ s t : string, s ∈ names → t ∈ names → index_of s = index_of t → s = t.
Hypothesis index_of_lt : ∀ s : string, s ∈ names → (index_of s < n_players)%nat.
Implicit Types (elo_functions : EloFunctions Theta Summaries).
Implicit Types (elo_params : EloParams Theta).

Lemma defaultdict_getitem_spec (default_value : vector)
    (d : gmap string vector) (k : string) :
  (defaultdict_getitem default_value d k).1 = default default_value (d !! k)
  ∧ ∀ s : string,
      default default_value ((defaultdict_getitem default_value d k).2 !! s)
      = default default_value (d !! s).
Proof.
  unfold defaultdict_getitem. destruct (d !! k) as [v|] eqn:Hk; simpl.
  - done.
  - split; [done|]. intros s.
    destruct (decide (k = s)) as [->|Hne].
    + by rewrite lookup_insert_eq, Hk.
    + by rewrite lookup_insert_ne.
Qed.

Lemma history_loop_simulates elo_functions elo_params (L : nat)
    (slices : list (string * string * vector * vector))
    (ratings : gmap string vector) (history : list match_record)
    (table : matrix) :
  Forall (fun x => x.1.1.1 ∈ names ∧ x.1.1.2 ∈ names) slices →
  length table = n_players →
  (∀ s : string, s ∈ names →
     table !! index_of s = Some (default (Jnp.zeros L) (ratings !! s))) →
  ∃ ratings' history',
    history_loop (Some (concatenate_and_update linalg_solve)) (Jnp.zeros L)
      elo_functions elo_params ratings history slices
    = Returned (ratings', history')
    ∧ ∀ s : string, s ∈ names →
        foldl (fun c x =>
                 (update_ratings linalg_solve c x elo_functions elo_params).1)
          table
          ((fun x => (index_of x.1.1.1, index_of x.1.1.2, x.1.2, x.2)) <$> slices)
          !! index_of s
        = Some (default (Jnp.zeros L) (ratings' !! s)).
Proof.
  intros Hnames. revert ratings history table.
  induction Hnames as [|[[[w l] a] y] slices [Hw Hl] Hnames IH];
    intros ratings history table Hlen Hrel.
  - exists ratings, history. by split.
  - simpl in Hw, Hl. cbn [history_loop fmap list_fmap foldl fst snd].
    destruct (defaultdict_getitem_spec (Jnp.zeros L) ratings w) as [Hmu1 Hr1].
    destruct (defaultdict_getitem (Jnp.zeros L) ratings w) as [mu1 r1].
    destruct (defaultdict_getitem_spec (Jnp.zeros L) r1 l) as [Hmu2 Hr2].
    destruct (defaultdict_getitem (Jnp.zeros L) r1 l) as [mu2 r2].
    simpl in Hmu1, Hr1, Hmu2, Hr2.
    rewrite update_ratings_unfold.
    rewrite !getitem_in_range by (rewrite Hlen; by apply index_of_lt).
    rewrite (Hrel w Hw), (Hrel l Hl). simpl.
    rewrite <- Hmu1, <- (Hr1 l), <- Hmu2.
    destruct (concatenate_and_update linalg_solve mu1 mu2 a y elo_functions
                elo_params) as [[new_mu1 new_mu2] lik].
    simpl. apply IH.
    + by rewrite !length_insert.
    + intros s Hs.
      destruct (decide (s = l)) as [->|Hsl].
      { rewrite lookup_insert_eq. simpl. apply list_lookup_insert_eq.
        rewrite length_insert, Hlen. by apply index_of_lt. }
      assert (index_of l ≠ index_of s) by (intros E; by apply Hsl, index_of_inj).
      rewrite list_lookup_insert_ne, lookup_insert_ne by done.
      destruct (decide (s = w)) as [->|Hsw].
      { rewrite lookup_insert_eq. simpl. apply list_lookup_insert_eq.
        rewrite Hlen. by apply index_of_lt. }
      assert (index_of w ≠ index_of s) by (intros E; by apply Hsw, index_of_inj).
      rewrite list_lookup_insert_ne, lookup_insert_ne by done.
      by rewrite Hrel, Hr2, Hr1.
Qed.
Lemma zip4_fmap_index (winners losers : list string) (a_full y_full : list vector) :
  zip4 (index_of <$> winners) (index_of <$> losers) a_full y_full
  = (fun x => (index_of x.1.1.1, index_of x.1.1.2, x.1.2, x.2))
    <$> zip4 winners losers a_full y_full.
Proof.
  unfold zip4. revert losers a_full y_full.
  induction winners as [|w winners IH]; intros [|l losers] [|a a_full]
    [|y y_full]; try done.
  simpl. f_equal. apply IH.
Qed.

Lemma zip4_names (winners losers : list string) (a_full y_full : list vector) :
  winners ⊆ names → losers ⊆ names →
  Forall (fun x => x.1.1.1 ∈ names ∧ x.1.1.2 ∈ names)
    (zip4 winners losers a_full y_full).
Proof.
  unfold zip4. revert losers a_full y_full.
  induction winners as [|w winners IH]; intros [|l losers] [|a a_full]
    [|y y_full] Hw Hl; try by constructor.
  simpl. constructor.
  - split; [apply Hw | apply Hl]; by left.
  - apply IH; intros s Hs; [apply Hw | apply Hl]; by right.
Qed.

(** The refinement that C1 describes, for the module with [compute_update]
    bound: started from the empty dictionary and from the all-zero table, the
    two computations end with the same mean for every competitor. *)
Lemma bound_history_refines_scan (winners losers : list string)
    (a_full : array2) (y_full : list vector) elo_functions elo_params :
  winners ⊆ names → losers ⊆ names →
  let L := (shape1 a_full / 2)%nat in
  ∃ ratings history,
    history_loop (Some (concatenate_and_update linalg_solve)) (Jnp.zeros L)
      elo_functions elo_params ∅ []
      (zip4 winners losers (rows a_full) y_full)
    = Returned (ratings, history)
    ∧ ∀ s : string, s ∈ names →
        (calculate_ratings_scan linalg_solve (index_of <$> winners)
           (index_of <$> losers) a_full y_full elo_functions elo_params
           (Jnp.zeros2 n_players L)).1 !! index_of s
        = Some (default (Jnp.zeros L) (ratings !! s)).
Proof.
  intros Hw Hl L.
  destruct (history_loop_simulates elo_functions elo_params L
              (zip4 winners losers (rows a_full) y_full) ∅ []
              (Jnp.zeros2 n_players L))
    as (ratings & history & Hloop & Hrel).
  - by apply zip4_names.
  - apply zeros2_length.
  - intros s Hs. rewrite zeros2_lookup, lookup_empty.
    by rewrite decide_True by (by apply index_of_lt).
  - exists ratings, history. split; [done|]. intros s Hs.
    rewrite <- (Hrel s Hs). unfold calculate_ratings_scan.
    rewrite zip4_fmap_index.
    match goal with |- context [scan ?f ?i ?xs] =>
      rewrite <- (scan_carry f i xs); by destruct (scan f i xs)
    end.
Qed.
End Refinement.

(** * The properties at concrete inputs *)

Lemma calculate_ratings_history_name_error_witness :
  Example.winners ≠ [] ∧ Example.losers ≠ [] ∧ rows Example.a_full ≠ []
  ∧ Example.y_full ≠ []
  ∧ calculate_ratings_history Example.winners Example.losers Example.a_full
      Example.y_full Example.functions Example.params1
    = Raised (NameError "compute_update").
Proof.
  split_and!; [discriminate..|].
  apply calculate_ratings_history_name_error; discriminate.
Defined.

Lemma calculate_update_newton_step_witness :
  let mu := [0; 0]%R in
  let cov := Jnp.kron (Jnp.eye 2) [[1%R]] in
  let a := [1; -1]%R in
  let hess := [[-1; 0]; [0; -1]]%R in
  solves hess a (Example.diagonal_solve hess a)
  ∧ ∃ delta : vector,
      solves hess (Jnp.neg a) delta
      ∧ calculate_update Example.diagonal_solve mu cov a [] Example.functions
          Example.params1
        = (Jnp.add mu delta, Jnp.dot a mu).
Proof.
  intros mu cov a hess.
  assert (H : solves hess a (Example.diagonal_solve hess a)).
  { unfold solves, Jnp.matvec, Jnp.dot, Example.diagonal_solve, Jnp.entry.
    simpl. f_equal; [lra|f_equal; lra]. }
  split; [exact H|].
  exact (calculate_update_newton_step Example.diagonal_solve mu cov a []
           Example.functions Example.params1 H).
Defined.

Lemma update_ratings_frame_witness :
  let carry := Jnp.zeros2 3 1 in
  let x := (0%nat, 1%nat, [1; -1]%R, @nil R) in
  let r := concatenate_and_update Example.diagonal_solve (Jnp.getitem carry 0)
             (Jnp.getitem carry 1) [1; -1]%R [] Example.functions
             Example.params1 in
  let carry' :=
    (update_ratings Example.diagonal_solve carry x Example.functions
       Example.params1).1 in
  2%nat ≠ 0%nat ∧ 2%nat ≠ 1%nat
  ∧ carry' = Jnp.index_update (Jnp.index_update carry 0 r.1.1) 1 r.1.2
  ∧ carry' !! 2%nat = carry !! 2%nat.
Proof.
  intros carry x r carry'. split_and!; [lia..| |];
    apply (update_ratings_frame Example.diagonal_solve carry 0 1 [1; -1]%R []
             Example.functions Example.params1 2); lia.
Defined.

Lemma calculate_ratings_scan_swap_disjoint_witness :
  let init := Jnp.zeros2 4 1 in
  Example.winners_array4 !! 0%nat = Some 0%nat
  ∧ Example.losers_array4 !! 0%nat = Some 1%nat
  ∧ Example.winners_array4 !! 1%nat = Some 2%nat
  ∧ Example.losers_array4 !! 1%nat = Some 3%nat
  ∧ (1 < length (rows Example.a_full4))%nat
  ∧ (1 < length Example.y_full4)%nat
  ∧ (3 < length init)%nat
  ∧ (calculate_ratings_scan Example.diagonal_solve
       (swap_adjacent 0 Example.winners_array4)
       (swap_adjacent 0 Example.losers_array4)
       (Array2 (shape1 Example.a_full4) (swap_adjacent 0 (rows Example.a_full4)))
       (swap_adjacent 0 Example.y_full4) Example.functions Example.params1
       init).1
    = (calculate_ratings_scan Example.diagonal_solve Example.winners_array4
         Example.losers_array4 Example.a_full4 Example.y_full4
         Example.functions Example.params1 init).1.
Proof.
  intros init. split_and!; [reflexivity..|simpl; lia|simpl; lia|simpl; lia|].
  apply (calculate_ratings_scan_swap_disjoint Example.diagonal_solve
           Example.winners_array4 Example.losers_array4 Example.a_full4
           Example.y_full4 Example.functions Example.params1 init
           0 0 1 2 3)%nat;
    solve [reflexivity | simpl; lia | lia].
Defined.

Lemma cholesky2_example :
  Example.cholesky2 (cov_mat Example.params) = [[2; 0]; [1; 1]]%R.
Proof.
  unfold Example.cholesky2, Jnp.entry. simpl.
  assert (H4 : sqrt 4 = 2%R).
  { replace 4%R with (2 * 2)%R by lra. apply sqrt_square. lra. }
  rewrite H4.
  replace (2 - 2 / 2 * (2 / 2))%R with 1%R by lra.
  rewrite sqrt_1. repeat f_equal. lra.
Qed.

Lemma update_params_roundtrip_witness :
  let L := Example.cholesky2 (cov_mat Example.params) in
  let start :=
    optimise_elo_start Example.cholesky2 Example.flatten_and_summarise
      Example.params in
  length (cov_mat Example.params_other) = length (cov_mat Example.params)
  ∧ lower_triangular 2 L
  ∧ Jnp.matmul L (Jnp.transpose L) = cov_mat Example.params
  ∧ (update_params start.1 Example.params_other Example.functions start.2
       true).1
    = Example.params.
Proof.
  intros L start.
  assert (HL : lower_triangular 2 L).
  { subst L. rewrite cholesky2_example. split.
    - split; [reflexivity|]. repeat constructor.
    - intros i j Hij. unfold Jnp.entry.
      destruct i as [|[|i]], j as [|[|j]]; simpl; reflexivity || lia. }
  assert (HC : Jnp.matmul L (Jnp.transpose L) = cov_mat Example.params).
  { subst L. rewrite cholesky2_example.
    unfold Jnp.matmul, Jnp.transpose, Jnp.column, Jnp.dot. simpl.
    repeat f_equal; lra. }
  split_and!; [reflexivity | exact HL | exact HC |].
  exact (update_params_roundtrip Example.cholesky2
           Example.flatten_and_summarise Example.params Example.params_other
           Example.functions true eq_refl HL HC eq_refl).
Defined.

Lemma update_params_covariance_witness :
  (∀ i : nat, (i < 1)%nat → diagonal_elt [1%R] i ≠ 0%R)
  ∧ positive_definite 1
      (cov_mat (update_params [1%R] Example.params1 Example.functions tt true).1).
Proof.
  assert (H : ∀ i : nat, (i < 1)%nat → diagonal_elt [1%R] i ≠ 0%R).
  { intros i Hi. replace i with 0%nat by lia.
    unfold diagonal_elt. simpl. lra. }
  split; [exact H|].
  exact (proj2 (proj2 (proj2
    (update_params_covariance [1%R] Example.params1 Example.functions tt true)))
    H).
Defined.

Lemma start_params_only_dimension_witness :
  length (cov_mat Example.params1) = length (cov_mat Example.params1')
  ∧ update_params [2; 3]%R Example.params1 Example.functions tt true
    = update_params [2; 3]%R Example.params1' Example.functions tt true
  ∧ to_optimise Example.diagonal_solve [2; 3]%R Example.params1
      Example.functions Example.winners_array Example.losers_array
      Example.a_full Example.y_full tt 3 true
    = to_optimise Example.diagonal_solve [2; 3]%R Example.params1'
        Example.functions Example.winners_array Example.losers_array
        Example.a_full Example.y_full tt 3 true.
Proof.
  split; [reflexivity|].
  apply start_params_only_dimension. reflexivity.
Defined.

(** * The three-match history of the specification *)

(** With the example model every match moves the winner up and the loser
    down by one: A ends at 2, B at 0 and C at -2, and the per-match
    likelihoods 0, -1 and 2 add up to 1. *)
Example calculate_ratings_scan_three_matches :
  calculate_ratings_scan Example.diagonal_solve Example.winners_array
    Example.losers_array Example.a_full Example.y_full Example.functions
    Example.params1 (Jnp.zeros2 3 1)
  = ([[2]; [0]; [-2]]%R, 1%R).
Proof. eval_arrays. Qed.

Example to_optimise_three_matches :
  (to_optimise Example.diagonal_solve [1]%R Example.params1 Example.functions
     Example.winners_array Example.losers_array Example.a_full Example.y_full
     tt 3 false).1 = (-1)%R.
Proof. eval_arrays. Qed.

(** Were [compute_update] bound to [concatenate_and_update], the history
    builder and the scan under A→0, B→1, C→2 would end with the same mean for
    each of the three competitors. *)
Example three_match_history_bound :
  ∃ ratings history,
    history_loop (Some (concatenate_and_update Example.diagonal_solve))
      (Jnp.zeros (shape1 Example.a_full / 2)) Example.functions Example.params1
      ∅ []
      (zip4 Example.winners Example.losers (rows Example.a_full) Example.y_full)
    = Returned (ratings, history)
    ∧ ∀ s : string, s ∈ ["A"; "B"; "C"]%string →
        (calculate_ratings_scan Example.diagonal_solve
           (Example.index_of <$> Example.winners)
           (Example.index_of <$> Example.losers) Example.a_full Example.y_full
           Example.functions Example.params1
           (Jnp.zeros2 3 (shape1 Example.a_full / 2))).1 !! Example.index_of s
        = Some (default (Jnp.zeros (shape1 Example.a_full / 2)) (ratings !! s)).
Proof.
  apply (bound_history_refines_scan Example.diagonal_solve Example.index_of
           ["A"; "B"; "C"]%string 3).
  - intros s t Hs Ht.
    repeat (apply elem_of_cons in Hs as [->|Hs]);
      repeat (apply elem_of_cons in Ht as [->|Ht]);
      try (by apply elem_of_nil in Hs); try (by apply elem_of_nil in Ht);
      by vm_compute.
  - intros s Hs.
    repeat (apply elem_of_cons in Hs as [->|Hs]);
      try (by apply elem_of_nil in Hs); vm_compute; lia.
  - intros s Hs. unfold Example.winners in Hs.
    rewrite !elem_of_cons in Hs. rewrite !elem_of_cons. tauto.
  - intros s Hs. unfold Example.losers in Hs.
    rewrite !elem_of_cons in Hs. rewrite !elem_of_cons. tauto.
Qed.

(** * The array operations at concrete inputs *)

Section Evaluation.
Local Open Scope R_scope.

Example kron_eye_2 :
  Jnp.kron (Jnp.eye 2) [[1; 2]; [3; 4]]
  = [[1; 2; 0; 0]; [3; 4; 0; 0]; [0; 0; 1; 2]; [0; 0; 3; 4]].
Proof. eval_arrays. Qed.

Example transpose_2_3 :
  Jnp.transpose [[1; 2; 3]; [4; 5; 6]] = [[1; 4]; [2; 5]; [3; 6]].
Proof. eval_arrays. Qed.

Example tril_indices_3 :
  Jnp.tril_indices 3 3
  = [(0, 0); (1, 0); (1, 1); (2, 0); (2, 1); (2, 2)]%nat.
Proof. reflexivity. Qed.

Example getitem_clamped :
  Jnp.getitem [[1]; [2]; [3]] 7 = [3].
Proof. reflexivity. Qed.

Example index_update_dropped :
  Jnp.index_update [[1]; [2]; [3]] 7 [9] = [[1]; [2]; [3]].
Proof. reflexivity. Qed.

Example lo_tri_from_elements_3 :
  MlTools.lo_tri_from_elements [1; 2; 3; 4; 5; 6] 3
  = [[1; 0; 0]; [2; 3; 0]; [4; 5; 6]].
Proof. eval_arrays. Qed.

Example pos_def_mat_from_tri_elts_2 :
  MlTools.pos_def_mat_from_tri_elts [1; 2; 3] 2 = [[1; 2]; [2; 13]].
Proof. eval_arrays. Qed.

Example get_starting_elts_2 :
  get_starting_elts Example.cholesky2 (cov_mat Example.params) = [2; 1; 1].
Proof.
  unfold get_starting_elts. rewrite cholesky2_example. eval_arrays.
Qed.

Example split2_4 : Jnp.split2 [1; 2; 3; 4] = ([1; 2], [3; 4]).
Proof. reflexivity. Qed.

(** The second match of the three-match history: B at -1 beats C at 0. *)
Example update_ratings_second_match :
  update_ratings Example.diagonal_solve [[1]; [-1]; [0]]
    (1%nat, 2%nat, [1; -1], []) Example.functions Example.params1
  = ([[1]; [0]; [-1]], -1).
Proof. eval_arrays. Qed.
End Evaluation.

(** * Further properties of the fold over a history *)

Lemma zip4_app {A B : Type} (w1 w2 l1 l2 : list A) (a1 a2 y1 y2 : list B) :
  length l1 = length w1 → length a1 = length w1 → length y1 = length w1 →
  zip4 (w1 ++ w2) (l1 ++ l2) (a1 ++ a2) (y1 ++ y2)
  = zip4 w1 l1 a1 y1 ++ zip4 w2 l2 a2 y2.
Proof.
  intros Hl Ha Hy. unfold zip4.
  rewrite !zip_with_app; rewrite ?length_zip_with; try lia. done.
Qed.

Lemma zip4_take {A B : Type} (i : nat) (winners losers : list A)
    (a_full y_full : list B) :
  take i (zip4 winners losers a_full y_full)
  = zip4 (take i winners) (take i losers) (take i a_full) (take i y_full).
Proof. unfold zip4. by rewrite !zip_with_take. Qed.

Lemma zip4_elem_of {A B : Type} (winners losers : list A)
    (a_full y_full : list B) (w l : A) (a y : B) :
  (w, l, a, y) ∈ zip4 winners losers a_full y_full →
  w ∈ winners ∧ l ∈ losers ∧ a ∈ a_full ∧ y ∈ y_full.
Proof.
  unfold zip4. intros H.
  pose proof (elem_of_zip_r _ _ _ _ H) as Hy.
  apply elem_of_zip_l in H.
  pose proof (elem_of_zip_r _ _ _ _ H) as Ha.
  apply elem_of_zip_l in H.
  pose proof (elem_of_zip_r _ _ _ _ H) as Hl.
  apply elem_of_zip_l in H. done.
Qed.

Lemma sum_app (u v : vector) :
  Jnp.sum (u ++ v) = (Jnp.sum u + Jnp.sum v)%R.
Proof.
  unfold Jnp.sum. induction u as [|x u IH]; simpl; [lra|]. rewrite IH. lra.
Qed.

Section Fold.
Context {Theta Summaries : Type}.
Variable linalg_solve : matrix → vector → vector.
Implicit Types (elo_functions : EloFunctions Theta Summaries).
Implicit Types (elo_params : EloParams Theta).

Lemma calculate_ratings_scan_unfold (winners_array losers_array : list nat)
    (a_full : array2) (y_full : list vector) elo_functions elo_params
    (init : matrix) :
  calculate_ratings_scan linalg_solve winners_array losers_array a_full y_full
    elo_functions elo_params init
  = let r := scan (fun carry x =>
                     update_ratings linalg_solve carry x elo_functions
                       elo_params)
               init (zip4 winners_array losers_array (rows a_full) y_full) in
    (r.1, Jnp.sum r.2).
Proof. unfold calculate_ratings_scan. by destruct (scan _ _ _). Qed.

(** The likelihood that a step returns is the predictive likelihood at the
    concatenation of the two rows read before the update. *)
Lemma update_ratings_lik (carry : matrix) (w l : nat) (a y : vector)
    elo_functions elo_params :
  (update_ratings linalg_solve carry (w, l, a, y) elo_functions elo_params).2
  = let mu := Jnp.concatenate (Jnp.getitem carry w) (Jnp.getitem carry l) in
    predictive_lik_fun elo_functions mu mu a
      (Jnp.kron (Jnp.eye 2) (cov_mat elo_params)) (theta elo_params) y.
Proof.
  rewrite update_ratings_unfold. unfold concatenate_and_update, calculate_update.
  reflexivity.
Qed.

(** Running the fold over a history that is the concatenation of two
    histories is running it over the first and then, from the table so
    reached, over the second; the total likelihoods add up. *)
Theorem calculate_ratings_scan_app (w1 w2 l1 l2 : list nat)
    (a1 a2 y1 y2 : list vector) (cols : nat) elo_functions elo_params
    (init : matrix) :
  length l1 = length w1 → length a1 = length w1 → length y1 = length w1 →
  calculate_ratings_scan linalg_solve (w1 ++ w2) (l1 ++ l2)
    (Array2 cols (a1 ++ a2)) (y1 ++ y2) elo_functions elo_params init
  = let r1 := calculate_ratings_scan linalg_solve w1 l1 (Array2 cols a1) y1
                elo_functions elo_params init in
    let r2 := calculate_ratings_scan linalg_solve w2 l2 (Array2 cols a2) y2
                elo_functions elo_params r1.1 in
    (r2.1, (r1.2 + r2.2)%R).
Proof.
  intros Hl Ha Hy. rewrite !calculate_ratings_scan_unfold. simpl.
  rewrite zip4_app by done. rewrite scan_app. simpl.
  rewrite calculate_ratings_scan_unfold. simpl. by rewrite sum_app.
Qed.

(** The total likelihood is the sum, over the matches, of the predictive
    likelihood of the match under the means that the matches before it have
    produced: each match is scored before it is applied. *)
Theorem calculate_ratings_scan_total_lik (winners_array losers_array : list nat)
    (a_full : array2) (y_full : list vector) elo_functions elo_params
    (init : matrix) :
  (calculate_ratings_scan linalg_solve winners_array losers_array a_full
     y_full elo_functions elo_params init).2
  = Jnp.sum
      (imap (fun i x =>
               let table :=
                 (calculate_ratings_scan linalg_solve (take i winners_array)
                    (take i losers_array)
                    (Array2 (shape1 a_full) (take i (rows a_full)))
                    (take i y_full) elo_functions elo_params init).1 in
               let mu := Jnp.concatenate (Jnp.getitem table x.1.1.1)
                           (Jnp.getitem table x.1.1.2) in
               predictive_lik_fun elo_functions mu mu x.1.2
                 (Jnp.kron (Jnp.eye 2) (cov_mat elo_params))
                 (theta elo_params) x.2)
         (zip4 winners_array losers_array (rows a_full) y_full)).
Proof.
  rewrite calculate_ratings_scan_unfold. simpl. rewrite scan_outputs.
  f_equal. apply imap_ext. intros i [[[w l] a] y] _. cbn [fst snd].
  rewrite update_ratings_lik, calculate_ratings_scan_unfold. cbn [fst snd rows].
  by rewrite <- zip4_take, scan_carry.
Qed.
End Fold.

Section FoldFrame.
Context {Theta Summaries : Type}.
Variable linalg_solve : matrix → vector → vector.
Implicit Types (elo_functions : EloFunctions Theta Summaries).
Implicit Types (elo_params : EloParams Theta).

(** A competitor who plays no match of the history keeps the row the
    initial table has for it. *)
Theorem calculate_ratings_scan_untouched (winners_array losers_array : list nat)
    (a_full : array2) (y_full : list vector) elo_functions elo_params
    (init : matrix) (j : nat) :
  j ∉ winners_array → j ∉ losers_array →
  (calculate_ratings_scan linalg_solve winners_array losers_array a_full
     y_full elo_functions elo_params init).1 !! j = init !! j.
Proof.
  intros Hw Hl. rewrite calculate_ratings_scan_unfold. cbn [fst].
  rewrite scan_carry.
  assert (Hxs : Forall (fun x => x.1.1.1 ≠ j ∧ x.1.1.2 ≠ j)
                  (zip4 winners_array losers_array (rows a_full) y_full)).
  { apply Forall_forall. intros [[[w l] a] y] Hx.
    apply zip4_elem_of in Hx as (Hxw & Hxl & _). simpl.
    split; intros ->; [by apply Hw | by apply Hl]. }
  revert init. induction Hxs as [|[[[w l] a] y] xs [Hjw Hjl] Hxs IH];
    intros init; [done|].
  simpl in Hjw, Hjl. cbn [foldl]. rewrite IH, update_ratings_unfold.
  cbn [fst]. by rewrite !list_lookup_insert_ne.
Qed.

Lemma scan_update_ratings_extra_rows elo_functions elo_params
    (xs : list (nat * nat * vector * vector)) (init extra : matrix) :
  Forall (fun x => (x.1.1.1 < length init)%nat ∧ (x.1.1.2 < length init)%nat)
    xs →
  scan (fun carry x =>
          update_ratings linalg_solve carry x elo_functions elo_params)
    (init ++ extra) xs
  = let r := scan (fun carry x =>
                     update_ratings linalg_solve carry x elo_functions
                       elo_params) init xs in
    (r.1 ++ extra, r.2).
Proof.
  set (f := fun carry x => update_ratings linalg_solve carry x _ _).
  revert init.
  induction xs as [|[[[w l] a] y] xs IH]; intros init Hxs; [done|].
  inversion Hxs as [|? ? [Hwi Hli] Hxs']; subst. simpl in Hwi, Hli.
  cbn [scan]. subst f. cbv beta.
  rewrite !update_ratings_unfold. cbv zeta. cbn [fst snd].
  rewrite !getitem_in_range by (rewrite ?length_app; lia).
  rewrite !lookup_app_l by lia.
  set (r := concatenate_and_update _ _ _ _ _ _ _).
  rewrite (insert_app_l _ _ w) by lia.
  rewrite (insert_app_l _ _ l) by (rewrite length_insert; lia).
  specialize (IH (<[l:=r.1.2]> (<[w:=r.1.1]> init))).
  rewrite IH.
  - cbv zeta. by destruct (scan _ (<[l:=r.1.2]> (<[w:=r.1.1]> init)) xs).
  - eapply Forall_impl; [exact Hxs'|]. intros x. by rewrite !length_insert.
Qed.

Lemma zip4_in_range (n : nat) (winners_array losers_array : list nat)
    (a_full y_full : list vector) :
  Forall (fun w => (w < n)%nat) winners_array →
  Forall (fun l => (l < n)%nat) losers_array →
  Forall (fun x => (x.1.1.1 < n)%nat ∧ (x.1.1.2 < n)%nat)
    (zip4 winners_array losers_array a_full y_full).
Proof.
  intros Hw Hl. apply Forall_forall. intros [[[w l] a] y] Hx.
  apply zip4_elem_of in Hx as (Hxw & Hxl & _). simpl.
  rewrite Forall_forall in Hw, Hl. split; [by apply Hw | by apply Hl].
Qed.

(** Rows past the competitors of a history are neither read nor written:
    appending rows to the initial table appends them to the final table and
    leaves the total likelihood as it is. *)
Theorem calculate_ratings_scan_extra_rows (winners_array losers_array : list nat)
    (a_full : array2) (y_full : list vector) elo_functions elo_params
    (init extra : matrix) :
  Forall (fun w => (w < length init)%nat) winners_array →
  Forall (fun l => (l < length init)%nat) losers_array →
  calculate_ratings_scan linalg_solve winners_array losers_array a_full y_full
    elo_functions elo_params (init ++ extra)
  = let r := calculate_ratings_scan linalg_solve winners_array losers_array
               a_full y_full elo_functions elo_params init in
    (r.1 ++ extra, r.2).
Proof.
  intros Hw Hl. rewrite !calculate_ratings_scan_unfold. cbn [fst snd].
  by rewrite scan_update_ratings_extra_rows by (by apply zip4_in_range).
Qed.

(** After a step the loser's row holds the new loser mean, also when
    winner and loser are the same row, and the winner's row the new winner
    mean when they differ; the number of rows does not change. *)
Theorem update_ratings_rows (carry : matrix) (w l : nat) (a y : vector)
    elo_functions elo_params :
  (w < length carry)%nat → (l < length carry)%nat →
  let r := concatenate_and_update linalg_solve (Jnp.getitem carry w)
             (Jnp.getitem carry l) a y elo_functions elo_params in
  let carry' :=
    (update_ratings linalg_solve carry (w, l, a, y) elo_functions elo_params).1 in
  length carry' = length carry
  ∧ carry' !! l = Some r.1.2
  ∧ carry' !! w = Some (if decide (w = l) then r.1.2 else r.1.1).
Proof.
  intros Hw Hl r carry'.
  destruct (update_ratings_written linalg_solve carry w l a y elo_functions
              elo_params) as (Hlen & Hloser & Hwinner).
  fold r carry' in Hlen, Hloser, Hwinner.
  split_and!; [done | by apply Hloser |].
  case_decide as Hwl; [subst; by apply Hloser | by apply Hwinner].
Qed.
End FoldFrame.

Section FoldShape.
Context {Theta Summaries : Type}.
Variable linalg_solve : matrix → vector → vector.
Implicit Types (elo_functions : EloFunctions Theta Summaries).
Implicit Types (elo_params : EloParams Theta).

Lemma getitem_elem_of (carry : matrix) (i : nat) :
  carry ≠ [] → Jnp.getitem carry i ∈ carry.
Proof.
  intros Hne. unfold Jnp.getitem.
  destruct (lookup_lt_is_Some_2 carry (i `min` (length carry - 1))) as [r Hr].
  - destruct carry; [done|]. simpl. lia.
  - rewrite Hr. simpl. by eapply list_elem_of_lookup_2.
Qed.

Lemma split2_length (v : vector) (L : nat) :
  length v = (2 * L)%nat →
  length (Jnp.split2 v).1 = L ∧ length (Jnp.split2 v).2 = L.
Proof.
  intros Hv. unfold Jnp.split2. cbn [fst snd].
  rewrite length_take, length_drop, Hv.
  replace (2 * L)%nat with (L * 2)%nat by lia. rewrite Nat.div_mul by lia. lia.
Qed.

(** When the solver returns a vector as long as its right-hand side and the
    Jacobian of the outcome model is as long as the mean it is taken at, a
    step on a table of rows of length [L] with a design vector of length [2L]
    gives a table of rows of length [L]. *)
Lemma update_ratings_shape elo_functions elo_params (L : nat) (carry : matrix)
    (w l : nat) (a y : vector) :
  (∀ (H : matrix) (J : vector), length (linalg_solve H J) = length J) →
  (∀ (x mu : vector) (cov : matrix) (a : vector) (t : Theta) (y : vector),
     length a = length x →
     length (log_post_jac_x elo_functions x mu cov a t y) = length x) →
  Forall (fun r => length r = L) carry → length a = (2 * L)%nat →
  Forall (fun r => length r = L)
    (update_ratings linalg_solve carry (w, l, a, y) elo_functions elo_params).1.
Proof.
  intros Hsolve Hjac Hrows Ha. rewrite update_ratings_unfold. cbn [fst].
  destruct (decide (carry = [])) as [->|Hne]; [done|].
  assert (Hget : ∀ i, length (Jnp.getitem carry i) = L).
  { intros i. rewrite Forall_forall in Hrows. by apply Hrows, getitem_elem_of. }
  unfold concatenate_and_update, calculate_update.
  set (mu := Jnp.concatenate _ _).
  assert (Hmu : length mu = (2 * L)%nat).
  { subst mu. unfold Jnp.concatenate. rewrite length_app, !Hget. lia. }
  match goal with |- context [Jnp.split2 ?v] =>
    assert (Hv : length v = (2 * L)%nat)
  end.
  { unfold Jnp.add, Jnp.neg.
    rewrite length_zip_with, length_fmap, Hsolve, Hjac by lia. lia. }
  destruct (split2_length _ L Hv) as [H1 H2].
  destruct (Jnp.split2 _) as [new_mu1 new_mu2]. simpl in *.
  by repeat apply Forall_insert.
Qed.

(** The table keeps its shape through a whole history: as many rows as the
    initial table, each of length [L]. *)
Theorem calculate_ratings_scan_shape (winners_array losers_array : list nat)
    (a_full : array2) (y_full : list vector) elo_functions elo_params
    (init : matrix) (L : nat) :
  (∀ (H : matrix) (J : vector), length (linalg_solve H J) = length J) →
  (∀ (x mu : vector) (cov : matrix) (a : vector) (t : Theta) (y : vector),
     length a = length x →
     length (log_post_jac_x elo_functions x mu cov a t y) = length x) →
  Forall (fun r => length r = L) init →
  Forall (fun a => length a = (2 * L)%nat) (rows a_full) →
  has_shape (length init) L
    (calculate_ratings_scan linalg_solve winners_array losers_array a_full
       y_full elo_functions elo_params init).1.
Proof.
  intros Hsolve Hjac Hinit Ha. rewrite calculate_ratings_scan_unfold. cbn [fst].
  split; [apply scan_update_ratings_length|].
  rewrite scan_carry.
  assert (Hxs : Forall (fun x => length x.1.2 = (2 * L)%nat)
                  (zip4 winners_array losers_array (rows a_full) y_full)).
  { apply Forall_forall. intros [[[w l] a] y] Hx.
    apply zip4_elem_of in Hx as (_ & _ & Hxa & _). simpl.
    rewrite Forall_forall in Ha. by apply Ha. }
  revert init Hinit. induction Hxs as [|[[[w l] a] y] xs Hx Hxs IH];
    intros init Hinit; [done|].
  cbn [foldl]. apply IH. by apply update_ratings_shape.
Qed.
End FoldShape.

Section FoldLikelihood.
Context {Theta Summaries : Type}.
Variable linalg_solve : matrix → vector → vector.
Implicit Types (elo_functions : EloFunctions Theta Summaries).
Implicit Types (elo_params : EloParams Theta).

(** The likelihood of a match is not changed by an earlier match between
    two other competitors. *)
Lemma update_ratings_lik_frame (carry : matrix) (w1 l1 w2 l2 : nat)
    (a1 y1 a2 y2 : vector) elo_functions elo_params :
  w1 ≠ w2 → w1 ≠ l2 → l1 ≠ w2 → l1 ≠ l2 →
  (w2 < length carry)%nat → (l2 < length carry)%nat →
  (update_ratings linalg_solve
     (update_ratings linalg_solve carry (w1, l1, a1, y1) elo_functions
        elo_params).1
     (w2, l2, a2, y2) elo_functions elo_params).2
  = (update_ratings linalg_solve carry (w2, l2, a2, y2) elo_functions
       elo_params).2.
Proof.
  intros H1 H2 H3 H4 Hw Hl. rewrite !update_ratings_lik.
  rewrite update_ratings_unfold. cbv zeta. cbn [fst].
  by rewrite !getitem_insert_ne by (rewrite ?length_insert; lia || done).
Qed.

(** Exchanging two adjacent matches between four distinct competitors,
    all rows of the table, leaves the total likelihood unchanged. *)
Theorem calculate_ratings_scan_swap_lik (winners_array losers_array : list nat)
    (a_full : array2) (y_full : list vector) elo_functions elo_params
    (init : matrix) (i wi li wj lj : nat) :
  winners_array !! i = Some wi → losers_array !! i = Some li →
  winners_array !! S i = Some wj → losers_array !! S i = Some lj →
  (S i < length (rows a_full))%nat → (S i < length y_full)%nat →
  wi ≠ wj → wi ≠ lj → li ≠ wj → li ≠ lj →
  (wi < length init)%nat → (li < length init)%nat →
  (wj < length init)%nat → (lj < length init)%nat →
  (calculate_ratings_scan linalg_solve (swap_adjacent i winners_array)
     (swap_adjacent i losers_array)
     (Array2 (shape1 a_full) (swap_adjacent i (rows a_full)))
     (swap_adjacent i y_full) elo_functions elo_params init).2
  = (calculate_ratings_scan linalg_solve winners_array losers_array a_full
       y_full elo_functions elo_params init).2.
Proof.
  intros Hwi Hli Hwj Hlj Ha Hy H1 H2 H3 H4 R1 R2 R3 R4.
  destruct (lookup_lt_is_Some_2 (rows a_full) i) as [ai Hai]; [lia|].
  destruct (lookup_lt_is_Some_2 (rows a_full) (S i)) as [aj Haj]; [lia|].
  destruct (lookup_lt_is_Some_2 y_full i) as [yi Hyi]; [lia|].
  destruct (lookup_lt_is_Some_2 y_full (S i)) as [yj Hyj]; [lia|].
  pose proof (zip4_lookup _ _ _ _ _ _ _ _ _ Hwi Hli Hai Hyi) as Zi.
  pose proof (zip4_lookup _ _ _ _ _ _ _ _ _ Hwj Hlj Haj Hyj) as Zj.
  destruct (swap_adjacent_split _ _ _ _ Zi Zj) as [Hsplit Hswap].
  rewrite !calculate_ratings_scan_unfold. cbn [fst snd rows].
  rewrite zip4_swap_adjacent by (done || by eapply lookup_lt_Some).
  set (f := fun carry x => update_ratings linalg_solve carry x _ _).
  rewrite Hswap. rewrite Hsplit at 3.
  rewrite !scan_app. cbn [fst snd scan].
  set (c := (scan f init _).1).
  assert (Hlen : length c = length init)
    by apply scan_update_ratings_length.
  assert (Hcomm : (f (f c (wi, li, ai, yi)).1 (wj, lj, aj, yj)).1
                  = (f (f c (wj, lj, aj, yj)).1 (wi, li, ai, yi)).1).
  { apply (update_ratings_commute linalg_solve c wi li wj lj);
      rewrite ?Hlen; done. }
  assert (Hj : (f (f c (wi, li, ai, yi)).1 (wj, lj, aj, yj)).2
               = (f c (wj, lj, aj, yj)).2).
  { apply update_ratings_lik_frame; rewrite ?Hlen; done. }
  assert (Hi : (f (f c (wj, lj, aj, yj)).1 (wi, li, ai, yi)).2
               = (f c (wi, li, ai, yi)).2).
  { apply update_ratings_lik_frame; rewrite ?Hlen; done. }
  destruct (f c (wi, li, ai, yi)) as [c1 k1] eqn:E1.
  destruct (f c (wj, lj, aj, yj)) as [c2 k2] eqn:E2.
  cbn [fst snd] in *.
  destruct (f c1 (wj, lj, aj, yj)) as [c12 k12] eqn:E12.
  destruct (f c2 (wi, li, ai, yi)) as [c21 k21] eqn:E21.
  cbn [fst snd] in *. subst c21 k12 k21.
  destruct (scan f c12 _) as [cf ks]. cbn [snd].
  rewrite !sum_app. unfold Jnp.sum. simpl. lra.
Qed.
End FoldLikelihood.

(** * Further properties of the objective *)

Section ObjectivePlayers.
Context {Theta Summaries : Type}.
Variable linalg_solve : matrix → vector → vector.
Implicit Types (functions : EloFunctions Theta Summaries).

(** Counting more competitors than the history has does not change the
    objective: with every index below [n_players], any larger count gives the
    same value and the same printed lines. *)
Theorem to_optimise_more_players (x : vector) (start_params : EloParams Theta)
    functions (winners_array losers_array : list nat) (a_full : array2)
    (y_full : list vector) (summaries : Summaries) (n_players more : nat)
    (verbose : bool) :
  Forall (fun w => (w < n_players)%nat) winners_array →
  Forall (fun l => (l < n_players)%nat) losers_array →
  to_optimise linalg_solve x start_params functions winners_array losers_array
    a_full y_full summaries (n_players + more) verbose
  = to_optimise linalg_solve x start_params functions winners_array
      losers_array a_full y_full summaries n_players verbose.
Proof.
  intros Hw Hl. unfold to_optimise, ratings_lik.
  destruct (update_params x start_params functions summaries verbose)
    as [params out].
  unfold Jnp.zeros2. rewrite replicate_add.
  rewrite !calculate_ratings_scan_unfold. cbn [fst snd].
  by rewrite scan_update_ratings_extra_rows
    by (apply zip4_in_range; by rewrite length_replicate).
Qed.
End ObjectivePlayers.

(** * Further properties of the win probability *)

Section WinProbabilityRange.
Local Open Scope R_scope.

Lemma expit_opp (z : R) : MlTools.expit (- z) = 1 - MlTools.expit z.
Proof.
  unfold MlTools.expit. rewrite Ropp_involutive, exp_Ropp.
  pose proof (exp_pos z) as Hp. field. lra.
Qed.

Lemma expit_gt_half (z : R) : 1 / 2 < MlTools.expit z ↔ 0 < z.
Proof.
  split; [|apply expit_pos]. intros H.
  destruct (Rlt_le_dec 0 z) as [Hz|Hz]; [done|]. exfalso.
  destruct (Rle_lt_or_eq_dec _ _ Hz) as [Hlt|Heq].
  - assert (Hpos : 0 < - z) by lra.
    pose proof (expit_pos _ Hpos) as Hn. rewrite expit_opp in Hn. lra.
  - subst z. rewrite expit_0 in H. lra.
Qed.

(** With a design vector of the form [[b, -b]], exchanging the two
    competitors gives the complementary probability. *)
Theorem calculate_win_prob_exchange (mu1 mu2 b : vector) (cov_mat : matrix)
    (pre_factor : R) :
  length mu1 = length b → length mu2 = length b →
  calculate_win_prob mu2 mu1 (b ++ Jnp.neg b) cov_mat pre_factor
  = 1 - calculate_win_prob mu1 mu2 (b ++ Jnp.neg b) cov_mat pre_factor.
Proof.
  intros H1 H2. unfold calculate_win_prob, MlTools.weighted_sum,
    MlTools.logistic_normal_integral_approx, Jnp.concatenate.
  rewrite <- expit_opp. f_equal.
  rewrite !dot_app, !dot_neg_l by done.
  set (s := sqrt _). unfold Rdiv. ring.
Qed.
End WinProbabilityRange.

Section WinProbabilityBlocks.
Local Open Scope R_scope.

Lemma fmap_mult_1 (b : vector) : Rmult 1 <$> b = b.
Proof. induction b as [|x b IH]; [done|]. simpl. f_equal; [lra | apply IH]. Qed.

Lemma fmap_mult_0 (b : vector) : Rmult 0 <$> b = Jnp.zeros (length b).
Proof.
  induction b as [|x b IH]; [done|]. unfold Jnp.zeros in *. simpl.
  f_equal; [lra | apply IH].
Qed.

Lemma dot_zeros_l (v : vector) (m : nat) : Jnp.dot (Jnp.zeros m) v = 0.
Proof. by rewrite dot_comm, dot_zeros_r. Qed.

(** [jnp.kron(jnp.eye(2), C)] is block diagonal with two copies of [C]. *)
Lemma kron_eye_2_blocks (C : matrix) :
  Jnp.kron (Jnp.eye 2) C
  = ((fun b => b ++ Jnp.zeros (length b)) <$> C)
    ++ ((fun b => Jnp.zeros (length b) ++ b) <$> C).
Proof.
  unfold Jnp.kron. simpl. rewrite app_nil_r. f_equal.
  - apply list_fmap_ext. intros _ b _.
    by rewrite app_nil_r, fmap_mult_1, fmap_mult_0.
  - apply list_fmap_ext. intros _ b _.
    by rewrite app_nil_r, fmap_mult_1, fmap_mult_0.
Qed.

Lemma matvec_kron_eye_2 (n : nat) (C : matrix) (a1 a2 : vector) :
  Forall (fun r => length r = n) C → length a1 = n →
  Jnp.matvec (Jnp.kron (Jnp.eye 2) C) (a1 ++ a2)
  = Jnp.matvec C a1 ++ Jnp.matvec C a2.
Proof.
  intros Hrows Ha. rewrite kron_eye_2_blocks. unfold Jnp.matvec.
  rewrite fmap_app, <- !list_fmap_compose. f_equal.
  - apply Forall_fmap_ext_1. eapply Forall_impl; [exact Hrows|].
    intros b Hb. simpl in *. rewrite dot_app by lia. rewrite dot_zeros_l. lra.
  - apply Forall_fmap_ext_1. eapply Forall_impl; [exact Hrows|].
    intros b Hb. simpl in *.
    rewrite dot_app by (unfold Jnp.zeros; rewrite length_replicate; lia).
    rewrite dot_zeros_l. lra.
Qed.

Lemma weighted_sum_blocks (n : nat) (mu1 mu2 a1 a2 : vector)
    (cov_mat : matrix) :
  has_shape n n cov_mat → length a1 = n → length mu1 = n →
  MlTools.weighted_sum (Jnp.concatenate mu1 mu2)
    (Jnp.kron (Jnp.eye 2) cov_mat) (a1 ++ a2)
  = (Jnp.dot a1 mu1 + Jnp.dot a2 mu2,
     quad_form cov_mat a1 + quad_form cov_mat a2).
Proof.
  intros [Hlen Hrows] Ha Hmu.
  unfold MlTools.weighted_sum, Jnp.concatenate, quad_form.
  rewrite (matvec_kron_eye_2 n) by done.
  rewrite !dot_app; [done| |lia].
  unfold Jnp.matvec. rewrite length_fmap. lia.
Qed.

(** The latent mean and variance that [calculate_win_prob] hands to the
    link function: the two competitors contribute separately, without cross
    terms between them. *)
Theorem calculate_win_prob_blocks (n : nat) (mu1 mu2 a1 a2 : vector)
    (cov_mat : matrix) (pre_factor : R) :
  has_shape n n cov_mat → length a1 = n → length mu1 = n →
  calculate_win_prob mu1 mu2 (a1 ++ a2) cov_mat pre_factor
  = MlTools.logistic_normal_integral_approx
      (pre_factor * (Jnp.dot a1 mu1 + Jnp.dot a2 mu2))
      (pre_factor ^ 2 * (quad_form cov_mat a1 + quad_form cov_mat a2)).
Proof.
  intros Hshape Ha Hmu. unfold calculate_win_prob.
  by rewrite (weighted_sum_blocks n).
Qed.

(** For a positive semi-definite covariance the winner is the favourite
    exactly when the scaled latent mean is positive. *)
Theorem calculate_win_prob_favourite (n : nat) (mu1 mu2 a1 a2 : vector)
    (cov_mat : matrix) (pre_factor : R) :
  has_shape n n cov_mat → positive_semidefinite n cov_mat →
  length a1 = n → length a2 = n → length mu1 = n →
  1 / 2 < calculate_win_prob mu1 mu2 (a1 ++ a2) cov_mat pre_factor
  ↔ 0 < pre_factor * (Jnp.dot a1 mu1 + Jnp.dot a2 mu2).
Proof.
  intros Hshape Hpsd Ha1 Ha2 Hmu. unfold calculate_win_prob.
  rewrite (weighted_sum_blocks n) by done.
  unfold MlTools.logistic_normal_integral_approx. rewrite expit_gt_half.
  pose proof (Hpsd a1 Ha1) as H1. pose proof (Hpsd a2 Ha2) as H2.
  set (m := pre_factor * _).
  set (v := quad_form cov_mat a1 + quad_form cov_mat a2) in *.
  assert (Hs : 0 < sqrt (1 + PI * (pre_factor ^ 2 * v) / 8)).
  { apply sqrt_lt_R0. pose proof PI_RGT_0 as Hpi.
    assert (Hv : 0 <= v) by (subst v; lra).
    assert (0 <= PI * (pre_factor ^ 2 * v)).
    { apply Rmult_le_pos; [lra|]. apply Rmult_le_pos; [apply pow2_ge_0|done]. }
    lra. }
  split; intros H.
  - apply Rmult_lt_reg_r with (r := / sqrt (1 + PI * (pre_factor ^ 2 * v) / 8)).
    + by apply Rinv_0_lt_compat.
    + rewrite Rmult_0_l. exact H.
  - by apply Rdiv_lt_0_compat.
Qed.
End WinProbabilityBlocks.

Section WinProbabilityEqualMeans.
Local Open Scope R_scope.

Lemma quad_form_zeros (C : matrix) (n : nat) : quad_form C (Jnp.zeros n) = 0.
Proof. unfold quad_form. apply dot_zeros_l. Qed.

Lemma positive_definite_semidefinite (n : nat) (C : matrix) :
  positive_definite n C → positive_semidefinite n C.
Proof.
  intros Hpd v Hv.
  destruct (Classical_Prop.classic (v = Jnp.zeros n)) as [->|Hne].
  - rewrite quad_form_zeros. lra.
  - apply Rlt_le. by apply Hpd.
Qed.

(** For a positive semi-definite covariance the latent variance is not
    negative, so the square root in the link function is taken of a number
    that is at least one. *)
Lemma latent_variance_radicand (n : nat) (mu1 mu2 a : vector)
    (cov_mat : matrix) (pre_factor : R) :
  has_shape n n cov_mat → positive_semidefinite n cov_mat →
  length mu1 = n → length a = (2 * n)%nat →
  1 <= 1 + PI * (pre_factor ^ 2
                 * (MlTools.weighted_sum (Jnp.concatenate mu1 mu2)
                      (Jnp.kron (Jnp.eye 2) cov_mat) a).2) / 8.
Proof.
  intros Hshape Hpsd Hmu Ha.
  rewrite <- (take_drop n a).
  rewrite (weighted_sum_blocks n) by (rewrite ?length_take; done || lia).
  cbn [snd].
  assert (H1 : 0 <= quad_form cov_mat (take n a))
    by (apply Hpsd; rewrite length_take; lia).
  assert (H2 : 0 <= quad_form cov_mat (drop n a))
    by (apply Hpsd; rewrite length_drop; lia).
  pose proof PI_RGT_0 as Hpi.
  assert (0 <= PI * (pre_factor ^ 2
                     * (quad_form cov_mat (take n a)
                        + quad_form cov_mat (drop n a)))).
  { apply Rmult_le_pos; [lra|]. apply Rmult_le_pos; [apply pow2_ge_0|lra]. }
  lra.
Qed.

(** C2, as the code has it.  For every mean of length [L], every symmetric
    positive-definite [L] by [L] covariance, every pre-factor and every design
    vector of length [2L] that sends the concatenation of the two equal means
    to zero, as every vector of the form [[b, -b]] does, the win probability
    is one half. *)
Theorem calculate_win_prob_equal_means (n : nat) (mean a : vector)
    (cov_mat : matrix) (pre_factor : R) :
  has_shape n n cov_mat → symmetric cov_mat → positive_definite n cov_mat →
  length mean = n → length a = (2 * n)%nat →
  Jnp.dot a (Jnp.concatenate mean mean) = 0 →
  calculate_win_prob mean mean a cov_mat pre_factor = 1 / 2.
Proof.
  intros Hshape _ Hpd Hmean Ha Hzero.
  pose proof (latent_variance_radicand n mean mean a cov_mat pre_factor Hshape
                (positive_definite_semidefinite n _ Hpd) Hmean Ha) as Hrad.
  unfold calculate_win_prob.
  unfold MlTools.weighted_sum in *. cbn [snd] in Hrad. rewrite Hzero.
  unfold MlTools.logistic_normal_integral_approx.
  set (s := 1 + PI * _ / 8) in *.
  assert (Hs : 0 < sqrt s) by (apply sqrt_lt_R0; lra).
  replace (pre_factor * 0 / sqrt s) with 0 by (field; lra).
  apply expit_0.
Qed.
End WinProbabilityEqualMeans.

Lemma calculate_win_prob_equal_means_witness :
  has_shape 1 1 [[1%R]] ∧ symmetric [[1%R]] ∧ positive_definite 1 [[1%R]]
  ∧ length [2%R] = 1%nat ∧ length [1; -1]%R = (2 * 1)%nat
  ∧ Jnp.dot [1; -1]%R (Jnp.concatenate [2%R] [2%R]) = 0%R
  ∧ calculate_win_prob [2%R] [2%R] [1; -1]%R [[1%R]] pre_factor_default
    = (1 / 2)%R.
Proof.
  assert (H1 : has_shape 1 1 [[1%R]]) by (split; repeat constructor).
  assert (H2 : symmetric [[1%R]]).
  { intros i j. unfold Jnp.entry.
    destruct i as [|[|i]], j as [|[|j]]; reflexivity. }
  assert (H3 : positive_definite 1 [[1%R]]).
  { intros v Hv Hne. destruct v as [|x [|]]; try discriminate.
    assert (Hx : x ≠ 0%R).
    { intros ->. apply Hne. reflexivity. }
    unfold quad_form, Jnp.matvec, Jnp.dot. simpl. nra. }
  assert (H6 : Jnp.dot [1; -1]%R (Jnp.concatenate [2%R] [2%R]) = 0%R)
    by (unfold Jnp.dot; simpl; lra).
  split_and!; [exact H1 | exact H2 | exact H3 | reflexivity | reflexivity
              | exact H6 |].
  exact (calculate_win_prob_equal_means 1 [2%R] [1; -1]%R [[1%R]]
           pre_factor_default H1 H2 H3 eq_refl eq_refl H6).
Defined.

(** * Further properties of the update, the parameters and the optimiser *)

Section UpdateStationary.
Context {Theta Summaries : Type}.
Variable linalg_solve : matrix → vector → vector.
Implicit Types (elo_functions : EloFunctions Theta Summaries).
Implicit Types (elo_params : EloParams Theta).

Lemma neg_zeros (m : nat) : Jnp.neg (Jnp.zeros m) = Jnp.zeros m.
Proof.
  unfold Jnp.neg, Jnp.zeros. induction m as [|m IH]; [done|]. simpl.
  f_equal; [lra | apply IH].
Qed.

(** At a stationary point of the log-posterior the update does not move the
    mean: when the Jacobian at [mu] vanishes, the Hessian is injective and the
    solver returns a solution as long as [mu], the new mean is [mu]. *)
Theorem calculate_update_stationary (mu : vector) (cov_mat : matrix)
    (a y : vector) elo_functions elo_params :
  let jac := log_post_jac_x elo_functions mu mu cov_mat a (theta elo_params) y in
  let hess := log_post_hess_x elo_functions mu mu cov_mat a (theta elo_params) y in
  jac = Jnp.zeros (length hess) →
  (∀ d : vector, length d = length mu →
     Jnp.matvec hess d = Jnp.zeros (length hess) → d = Jnp.zeros (length mu)) →
  length (linalg_solve hess jac) = length mu →
  solves hess jac (linalg_solve hess jac) →
  (calculate_update linalg_solve mu cov_mat a y elo_functions elo_params).1 = mu.
Proof.
  intros jac hess Hjac Hinj Hlen Hsol. unfold calculate_update. fold jac hess.
  cbn [fst]. unfold solves in Hsol. rewrite Hjac in Hsol at 2.
  rewrite (Hinj _ Hlen Hsol), neg_zeros, add_comm. apply add_zeros_r.
Qed.
End UpdateStationary.

Section HistoryEdge.
Context {Theta Summaries : Type}.
Implicit Types (elo_functions : EloFunctions Theta Summaries).
Implicit Types (elo_params : EloParams Theta).

(** [zip] stops at the shortest of its arguments: the history builder
    returns normally, with the empty history, exactly when one of the four
    sequences is empty. *)
Theorem calculate_ratings_history_returns (winners losers : list string)
    (a_full : array2) (y_full : list vector) elo_functions elo_params
    (history : list match_record) :
  calculate_ratings_history winners losers a_full y_full elo_functions
    elo_params = Returned history
  ↔ history = []
    ∧ (winners = [] ∨ losers = [] ∨ rows a_full = [] ∨ y_full = []).
Proof.
  unfold calculate_ratings_history, module_compute_update, zip4.
  destruct winners as [|w ws]; [cbn; split; [intros [= <-]|intros [-> _]]; auto|].
  destruct losers as [|l ls]; [cbn; split; [intros [= <-]|intros [-> _]]; auto|].
  destruct (rows a_full) as [|a rs];
    [cbn; split; [intros [= <-]|intros [-> _]]; auto|].
  destruct y_full as [|y ys]; [cbn; split; [intros [= <-]|intros [-> _]]; auto|].
  cbn [zip_with history_loop].
  destruct (defaultdict_getitem _ ∅ w) as [mu1 r1].
  destruct (defaultdict_getitem _ r1 l) as [mu2 r2].
  split; [discriminate|]. intros [_ [H|[H|[H|H]]]]; discriminate.
Qed.
End HistoryEdge.

Section ParameterVector.
Context {Theta Summaries : Type}.
Variable linalg_cholesky : matrix → matrix.
Variable flatten_and_summarise : Theta → vector * Summaries.
Implicit Types (functions : EloFunctions Theta Summaries).
Implicit Types (params : EloParams Theta).

(** The flat vector is read in two segments: the covariance is rebuilt
    from the first [L(L+1)/2] entries alone and [theta] is parsed from the
    entries after them alone. *)
Theorem update_params_segments (elts rest : vector) params functions
    (summaries : Summaries) (verbose : bool) :
  length elts = MlTools.num_triangular_elts (length (cov_mat params)) →
  (update_params (elts ++ rest) params functions summaries verbose).1
  = {| theta := parse_theta_fun functions rest summaries;
       cov_mat := MlTools.pos_def_mat_from_tri_elts elts
                    (length (cov_mat params)) |}.
Proof.
  intros Hlen. unfold update_params. cbn [fst].
  by rewrite <- Hlen, take_app_length, drop_app_length.
Qed.

(** When the Cholesky factor is [n] by [n], the flat start vector of the
    optimiser has [n(n+1)/2] entries for the covariance followed by the
    flattened [theta]. *)
Theorem optimise_elo_start_length (n : nat) params :
  has_shape n n (linalg_cholesky (cov_mat params)) →
  length (optimise_elo_start linalg_cholesky flatten_and_summarise params).1
  = (MlTools.num_triangular_elts n
     + length (flatten_and_summarise (theta params)).1)%nat.
Proof.
  intros Hshape. unfold optimise_elo_start, get_starting_elts.
  destruct (flatten_and_summarise (theta params)) as [theta_flat s].
  cbn [fst]. unfold Jnp.concatenate, Jnp.getitem_indices, Jnp.tril_indices_from.
  rewrite length_app, length_fmap, (ncols_square n) by done.
  destruct Hshape as [-> _]. by rewrite tril_indices_length.
Qed.
End ParameterVector.

Section OptimiserProperties.
Context {Theta Summaries OptimizeResult : Type}.
Variable linalg_solve : matrix → vector → vector.
Variable linalg_cholesky : matrix → matrix.
Variable flatten_and_summarise : Theta → vector * Summaries.
Variable minimize :
  (vector → R) → vector → (vector → vector) → R → OptimizeResult.
Variable result_x : OptimizeResult → vector.
Variable grad : (vector → R) → vector → vector.
Implicit Types (functions : EloFunctions Theta Summaries).
Implicit Types (start_params : EloParams Theta).

(** Whatever vector the minimiser stops at, the covariance that
    [optimise_elo] returns has the dimension of the start covariance and is
    symmetric and positive semi-definite. *)
Theorem optimise_elo_covariance start_params functions
    (winners_array losers_array : list nat) (a_full : array2)
    (y_full : list vector) (n_players : nat) (tol : R) (verbose : bool) :
  let n := length (cov_mat start_params) in
  let C := cov_mat (optimise_elo linalg_solve linalg_cholesky
                      flatten_and_summarise minimize result_x grad
                      start_params functions winners_array losers_array
                      a_full y_full n_players tol verbose).1 in
  has_shape n n C ∧ symmetric C ∧ positive_semidefinite n C.
Proof.
  intros n C. subst C. unfold optimise_elo.
  destruct (flatten_and_summarise (theta start_params)) as [theta_flat s].
  cbn [fst]. rewrite update_params_cov_mat. fold n.
  match goal with |- context [MlTools.pos_def_mat_from_tri_elts ?e n] =>
    destruct (pos_def_mat_from_tri_elts_spec e n) as (H1 & H2 & H3 & _)
  end.
  done.
Qed.

(** When the minimiser stops at the vector it was started from,
    [optimise_elo] returns the start parameters, provided the Cholesky
    routine returns a lower-triangular factor of the start covariance and the
    parser of the outcome model undoes the flattening of [theta]. *)
Theorem optimise_elo_fixed_start start_params functions
    (winners_array losers_array : list nat) (a_full : array2)
    (y_full : list vector) (n_players : nat) (tol : R) (verbose : bool) :
  let L := linalg_cholesky (cov_mat start_params) in
  let flat := flatten_and_summarise (theta start_params) in
  lower_triangular (length (cov_mat start_params)) L →
  Jnp.matmul L (Jnp.transpose L) = cov_mat start_params →
  parse_theta_fun functions flat.1 flat.2 = theta start_params →
  (∀ (f : vector → R) (x0 : vector) (g : vector → vector),
     result_x (minimize f x0 g tol) = x0) →
  (optimise_elo linalg_solve linalg_cholesky flatten_and_summarise minimize
     result_x grad start_params functions winners_array losers_array a_full
     y_full n_players tol verbose).1 = start_params.
Proof.
  intros L flat HL Hchol Hparse Hmin. unfold optimise_elo. fold flat.
  destruct flat as [theta_flat theta_summary]. cbn [fst snd] in *.
  rewrite Hmin. unfold get_starting_elts. fold L.
  destruct (lo_tri_from_elements_tril _ L HL) as [Hlen Hrebuild].
  unfold update_params, Jnp.concatenate. cbn [fst].
  rewrite <- Hlen, take_app_length, drop_app_length.
  unfold MlTools.pos_def_mat_from_tri_elts. rewrite Hrebuild, Hchol, Hparse.
  by destruct start_params.
Qed.
End OptimiserProperties.

Section OutOfRange.
Context {Theta Summaries : Type}.
Variable linalg_solve : matrix → vector → vector.
Implicit Types (elo_functions : EloFunctions Theta Summaries).
Implicit Types (elo_params : EloParams Theta).

(** A match whose winner and loser indices both lie past the last row
    writes nothing: the table is returned as it was. *)
Theorem update_ratings_out_of_range (carry : matrix) (w l : nat)
    (a y : vector) elo_functions elo_params :
  (length carry ≤ w)%nat → (length carry ≤ l)%nat →
  (update_ratings linalg_solve carry (w, l, a, y) elo_functions elo_params).1
  = carry.
Proof.
  intros Hw Hl. rewrite update_ratings_unfold. cbn [fst].
  by rewrite list_insert_ge, list_insert_ge by (rewrite ?length_insert; lia).
Qed.
End OutOfRange.

(** * The further properties at concrete inputs *)

Lemma calculate_ratings_scan_app_witness :
  length [1%nat] = length [0%nat]
  ∧ length [[1; -1]%R] = length [0%nat]
  ∧ length [@nil R] = length [0%nat]
  ∧ calculate_ratings_scan Example.diagonal_solve ([0] ++ [1; 0])%nat
      ([1] ++ [2; 2])%nat (Array2 2 ([[1; -1]] ++ [[1; -1]; [1; -1]])%R)
      ([[]] ++ [[]; []]) Example.functions Example.params1 (Jnp.zeros2 3 1)
    = let r1 := calculate_ratings_scan Example.diagonal_solve [0%nat] [1%nat]
                  (Array2 2 [[1; -1]%R]) [[]] Example.functions
                  Example.params1 (Jnp.zeros2 3 1) in
      let r2 := calculate_ratings_scan Example.diagonal_solve [1; 0]%nat
                  [2; 2]%nat (Array2 2 [[1; -1]; [1; -1]]%R) [[]; []]
                  Example.functions Example.params1 r1.1 in
      (r2.1, (r1.2 + r2.2)%R).
Proof.
  split_and!; [reflexivity..|].
  apply calculate_ratings_scan_app; reflexivity.
Defined.

Lemma calculate_ratings_scan_untouched_witness :
  (2%nat ∉ [0; 0]%nat) ∧ (2%nat ∉ [1; 1]%nat)
  ∧ (calculate_ratings_scan Example.diagonal_solve [0; 0]%nat [1; 1]%nat
       Example.a_full4 Example.y_full4 Example.functions Example.params1
       [[5]; [6]; [7]]%R).1 !! 2%nat = [[5]; [6]; [7]]%R !! 2%nat.
Proof.
  assert (H1 : 2%nat ∉ [0; 0]%nat).
  { rewrite !not_elem_of_cons. split_and!; [lia..|apply not_elem_of_nil]. }
  assert (H2 : 2%nat ∉ [1; 1]%nat).
  { rewrite !not_elem_of_cons. split_and!; [lia..|apply not_elem_of_nil]. }
  split_and!; [exact H1 | exact H2 |].
  apply calculate_ratings_scan_untouched; [exact H1 | exact H2].
Defined.

Lemma calculate_ratings_scan_extra_rows_witness :
  Forall (fun w => (w < length (Jnp.zeros2 3 1))%nat) Example.winners_array
  ∧ Forall (fun l => (l < length (Jnp.zeros2 3 1))%nat) Example.losers_array
  ∧ calculate_ratings_scan Example.diagonal_solve Example.winners_array
      Example.losers_array Example.a_full Example.y_full Example.functions
      Example.params1 (Jnp.zeros2 3 1 ++ [[9]; [8]]%R)
    = let r := calculate_ratings_scan Example.diagonal_solve
                 Example.winners_array Example.losers_array Example.a_full
                 Example.y_full Example.functions Example.params1
                 (Jnp.zeros2 3 1) in
      (r.1 ++ [[9]; [8]]%R, r.2).
Proof.
  assert (H1 : Forall (fun w => (w < length (Jnp.zeros2 3 1))%nat)
                 Example.winners_array)
    by (repeat constructor; simpl; lia).
  assert (H2 : Forall (fun l => (l < length (Jnp.zeros2 3 1))%nat)
                 Example.losers_array)
    by (repeat constructor; simpl; lia).
  split_and!; [exact H1 | exact H2 |].
  apply calculate_ratings_scan_extra_rows; [exact H1 | exact H2].
Defined.

Lemma update_ratings_rows_witness :
  let carry := Jnp.zeros2 3 1 in
  let r := concatenate_and_update Example.diagonal_solve (Jnp.getitem carry 1)
             (Jnp.getitem carry 1) [1; -1]%R [] Example.functions
             Example.params1 in
  let carry' :=
    (update_ratings Example.diagonal_solve carry
       (1%nat, 1%nat, [1; -1]%R, []) Example.functions Example.params1).1 in
  (1 < length carry)%nat
  ∧ length carry' = length carry
  ∧ carry' !! 1%nat = Some r.1.2
  ∧ carry' !! 1%nat = Some (if decide (1%nat = 1%nat) then r.1.2 else r.1.1).
Proof.
  intros carry r carry'.
  assert (H : (1 < length carry)%nat) by (simpl; lia).
  split; [exact H|].
  exact (update_ratings_rows Example.diagonal_solve carry 1 1 [1; -1]%R []
           Example.functions Example.params1 H H).
Defined.

Lemma diagonal_solve_length (H : matrix) (J : vector) :
  length (Example.diagonal_solve H J) = length J.
Proof. unfold Example.diagonal_solve. apply length_imap. Qed.

Lemma calculate_ratings_scan_shape_witness :
  (∀ (H : matrix) (J : vector),
     length (Example.diagonal_solve H J) = length J)
  ∧ (∀ (x mu : vector) (cov : matrix) (a t y : vector),
       length a = length x →
       length (log_post_jac_x Example.functions x mu cov a t y) = length x)
  ∧ Forall (fun r => length r = 1%nat) (Jnp.zeros2 3 1)
  ∧ Forall (fun a => length a = (2 * 1)%nat) (rows Example.a_full)
  ∧ has_shape (length (Jnp.zeros2 3 1)) 1
      (calculate_ratings_scan Example.diagonal_solve Example.winners_array
         Example.losers_array Example.a_full Example.y_full Example.functions
         Example.params1 (Jnp.zeros2 3 1)).1.
Proof.
  assert (H2 : ∀ (x mu : vector) (cov : matrix) (a t y : vector),
            length a = length x →
            length (log_post_jac_x Example.functions x mu cov a t y) = length x)
    by (intros x mu cov a t y Ha; exact Ha).
  assert (H3 : Forall (fun r => length r = 1%nat) (Jnp.zeros2 3 1))
    by (repeat constructor).
  assert (H4 : Forall (fun a => length a = (2 * 1)%nat) (rows Example.a_full))
    by (repeat constructor).
  split_and!; [exact diagonal_solve_length | exact H2 | exact H3 | exact H4 |].
  exact (calculate_ratings_scan_shape Example.diagonal_solve
           Example.winners_array Example.losers_array Example.a_full
           Example.y_full Example.functions Example.params1 (Jnp.zeros2 3 1) 1
           diagonal_solve_length H2 H3 H4).
Defined.

Lemma calculate_ratings_scan_swap_lik_witness :
  let init := Jnp.zeros2 4 1 in
  Example.winners_array4 !! 0%nat = Some 0%nat
  ∧ Example.losers_array4 !! 0%nat = Some 1%nat
  ∧ Example.winners_array4 !! 1%nat = Some 2%nat
  ∧ Example.losers_array4 !! 1%nat = Some 3%nat
  ∧ (1 < length (rows Example.a_full4))%nat
  ∧ (1 < length Example.y_full4)%nat
  ∧ (3 < length init)%nat
  ∧ (calculate_ratings_scan Example.diagonal_solve
       (swap_adjacent 0 Example.winners_array4)
       (swap_adjacent 0 Example.losers_array4)
       (Array2 (shape1 Example.a_full4) (swap_adjacent 0 (rows Example.a_full4)))
       (swap_adjacent 0 Example.y_full4) Example.functions Example.params1
       init).2
    = (calculate_ratings_scan Example.diagonal_solve Example.winners_array4
         Example.losers_array4 Example.a_full4 Example.y_full4
         Example.functions Example.params1 init).2.
Proof.
  intros init. split_and!; [reflexivity..|simpl; lia|simpl; lia|simpl; lia|].
  apply (calculate_ratings_scan_swap_lik Example.diagonal_solve
           Example.winners_array4 Example.losers_array4 Example.a_full4
           Example.y_full4 Example.functions Example.params1 init
           0 0 1 2 3)%nat;
    solve [reflexivity | simpl; lia | lia].
Defined.

Lemma to_optimise_more_players_witness :
  Forall (fun w => (w < 3)%nat) Example.winners_array
  ∧ Forall (fun l => (l < 3)%nat) Example.losers_array
  ∧ to_optimise Example.diagonal_solve [1]%R Example.params1 Example.functions
      Example.winners_array Example.losers_array Example.a_full Example.y_full
      tt (3 + 4) true
    = to_optimise Example.diagonal_solve [1]%R Example.params1
        Example.functions Example.winners_array Example.losers_array
        Example.a_full Example.y_full tt 3 true.
Proof.
  assert (H1 : Forall (fun w => (w < 3)%nat) Example.winners_array)
    by (repeat constructor; lia).
  assert (H2 : Forall (fun l => (l < 3)%nat) Example.losers_array)
    by (repeat constructor; lia).
  split_and!; [exact H1 | exact H2 |].
  apply to_optimise_more_players; [exact H1 | exact H2].
Defined.

Lemma calculate_win_prob_exchange_witness :
  length [3%R] = length [1%R] ∧ length [5%R] = length [1%R]
  ∧ calculate_win_prob [5%R] [3%R] ([1%R] ++ Jnp.neg [1%R]) [[2%R]]
      pre_factor_default
    = (1 - calculate_win_prob [3%R] [5%R] ([1%R] ++ Jnp.neg [1%R]) [[2%R]]
           pre_factor_default)%R.
Proof.
  split_and!; [reflexivity..|].
  apply calculate_win_prob_exchange; reflexivity.
Defined.

Lemma psd_1 : positive_semidefinite 1 [[2%R]].
Proof.
  intros v Hv. destruct v as [|x [|]]; try discriminate.
  unfold quad_form, Jnp.matvec, Jnp.dot. simpl. nra.
Qed.

Lemma calculate_win_prob_blocks_witness :
  has_shape 1 1 [[2%R]] ∧ length [1%R] = 1%nat ∧ length [3%R] = 1%nat
  ∧ calculate_win_prob [3%R] [5%R] ([1%R] ++ [-1]%R) [[2%R]] pre_factor_default
    = MlTools.logistic_normal_integral_approx
        (pre_factor_default * (Jnp.dot [1%R] [3%R] + Jnp.dot [-1]%R [5%R]))
        (pre_factor_default ^ 2
         * (quad_form [[2%R]] [1%R] + quad_form [[2%R]] [-1]%R)).
Proof.
  assert (Hs : has_shape 1 1 [[2%R]]) by (split; repeat constructor).
  split_and!; [exact Hs | reflexivity..|].
  apply (calculate_win_prob_blocks 1); [exact Hs | reflexivity..].
Defined.

Lemma calculate_win_prob_favourite_witness :
  has_shape 1 1 [[2%R]] ∧ positive_semidefinite 1 [[2%R]]
  ∧ length [1%R] = 1%nat ∧ length [-1]%R = 1%nat ∧ length [5%R] = 1%nat
  ∧ ((1 / 2 < calculate_win_prob [5%R] [3%R] ([1%R] ++ [-1]%R) [[2%R]]
                pre_factor_default)%R
     ↔ (0 < pre_factor_default
            * (Jnp.dot [1%R] [5%R] + Jnp.dot [-1]%R [3%R]))%R).
Proof.
  assert (Hs : has_shape 1 1 [[2%R]]) by (split; repeat constructor).
  split_and!; [exact Hs | exact psd_1 | reflexivity..|].
  apply (calculate_win_prob_favourite 1);
    [exact Hs | exact psd_1 | reflexivity..].
Defined.

Lemma calculate_update_stationary_witness :
  let mu := [3; 4]%R in
  let a := [0; 0]%R in
  let hess := [[-1; 0]; [0; -1]]%R in
  a = Jnp.zeros (length hess)
  ∧ (∀ d : vector, length d = length mu →
       Jnp.matvec hess d = Jnp.zeros (length hess) → d = Jnp.zeros (length mu))
  ∧ length (Example.diagonal_solve hess a) = length mu
  ∧ solves hess a (Example.diagonal_solve hess a)
  ∧ (calculate_update Example.diagonal_solve mu [] a [] Example.functions
       Example.params1).1 = mu.
Proof.
  intros mu a hess.
  assert (H1 : a = Jnp.zeros (length hess)) by reflexivity.
  assert (H2 : ∀ d : vector, length d = length mu →
            Jnp.matvec hess d = Jnp.zeros (length hess) →
            d = Jnp.zeros (length mu)).
  { intros d Hd Hz. destruct d as [|x [|y [|]]]; try discriminate.
    unfold Jnp.matvec, Jnp.dot in Hz. simpl in Hz.
    injection Hz as Hx Hy. unfold Jnp.zeros. simpl.
    f_equal; [lra | f_equal; lra]. }
  assert (H3 : length (Example.diagonal_solve hess a) = length mu)
    by reflexivity.
  assert (H4 : solves hess a (Example.diagonal_solve hess a)).
  { unfold solves, Jnp.matvec, Jnp.dot, Example.diagonal_solve, Jnp.entry.
    simpl. f_equal; [lra | f_equal; lra]. }
  split_and!; [exact H1 | exact H2 | exact H3 | exact H4 |].
  exact (calculate_update_stationary Example.diagonal_solve mu [] a []
           Example.functions Example.params1 H1 H2 H3 H4).
Defined.

Lemma update_params_segments_witness :
  length [1; 2; 3]%R
  = MlTools.num_triangular_elts (length (cov_mat Example.params))
  ∧ (update_params ([1; 2; 3] ++ [7; 8])%R Example.params Example.functions
       tt true).1
    = {| theta := parse_theta_fun Example.functions [7; 8]%R tt;
         cov_mat := MlTools.pos_def_mat_from_tri_elts [1; 2; 3]%R
                      (length (cov_mat Example.params)) |}.
Proof.
  split; [reflexivity|]. apply update_params_segments. reflexivity.
Defined.

Lemma optimise_elo_start_length_witness :
  has_shape 2 2 (Example.cholesky2 (cov_mat Example.params))
  ∧ length (optimise_elo_start Example.cholesky2
              Example.flatten_and_summarise Example.params).1
    = (MlTools.num_triangular_elts 2
       + length (Example.flatten_and_summarise (theta Example.params)).1)%nat.
Proof.
  assert (H : has_shape 2 2 (Example.cholesky2 (cov_mat Example.params)))
    by (split; repeat constructor).
  split; [exact H|].
  exact (optimise_elo_start_length Example.cholesky2
           Example.flatten_and_summarise 2 Example.params H).
Defined.

Lemma optimise_elo_fixed_start_witness :
  let L := Example.cholesky2 (cov_mat Example.params) in
  lower_triangular 2 L
  ∧ Jnp.matmul L (Jnp.transpose L) = cov_mat Example.params
  ∧ (∀ (f : vector → R) (x0 : vector) (g : vector → vector),
       Example.minimize_start f x0 g 1%R = x0)
  ∧ (optimise_elo Example.diagonal_solve Example.cholesky2
       Example.flatten_and_summarise Example.minimize_start (fun r => r)
       Example.grad_zero Example.params Example.functions
       Example.winners_array Example.losers_array Example.a_full
       Example.y_full 3 1%R true).1 = Example.params.
Proof.
  intros L.
  assert (HL : lower_triangular 2 L).
  { subst L. rewrite cholesky2_example. split.
    - split; [reflexivity|]. repeat constructor.
    - intros i j Hij. unfold Jnp.entry.
      destruct i as [|[|i]], j as [|[|j]]; simpl; reflexivity || lia. }
  assert (HC : Jnp.matmul L (Jnp.transpose L) = cov_mat Example.params).
  { subst L. rewrite cholesky2_example.
    unfold Jnp.matmul, Jnp.transpose, Jnp.column, Jnp.dot. simpl.
    repeat f_equal; lra. }
  assert (HM : ∀ (f : vector → R) (x0 : vector) (g : vector → vector),
            Example.minimize_start f x0 g 1%R = x0) by reflexivity.
  split_and!; [exact HL | exact HC | exact HM |].
  exact (optimise_elo_fixed_start Example.diagonal_solve Example.cholesky2
           Example.flatten_and_summarise Example.minimize_start (fun r => r)
           Example.grad_zero Example.params Example.functions
           Example.winners_array Example.losers_array Example.a_full
           Example.y_full 3 1%R true HL HC eq_refl HM).
Defined.

Lemma update_ratings_out_of_range_witness :
  (length (Jnp.zeros2 3 1) ≤ 3)%nat ∧ (length (Jnp.zeros2 3 1) ≤ 5)%nat
  ∧ (update_ratings Example.diagonal_solve (Jnp.zeros2 3 1)
       (3%nat, 5%nat, [1; -1]%R, []) Example.functions Example.params1).1
    = Jnp.zeros2 3 1.
Proof.
  split_and!; [simpl; lia..|].
  apply update_ratings_out_of_range; simpl; lia.
Defined.
